(** * NOVA Clippy: the incremental synchronisation engine of [nova_clippy/main.py]

    A shallow embedding of the functions of [main.py] that decide what is
    fetched again: [dict_compare], [threadpool_execute],
    [search_cats_in_course], [search_files_in_category], the login loop and
    the stage sequence of [main].

    Python values are modelled as follows.
    - A [dict] from category names to counts is an association list in
      insertion order (the order Python iterates it in).  [None] is the
      [None] of [option].
    - Python integers are [Z].
    - A [pathlib.Path] is the list of its components; [p / x] appends one.
    - Code that raises returns [Raise e]; the collaborators that [main.py]
      imports from [handlers] and [modules] (absent from the sources at hand)
      are the fields of the class [Handlers], over an arbitrary type [W] of
      states of the outside world (server, disk, configuration).
    - Every call to a collaborator is recorded as an [Event], so that what a
      function did, and in which order, can be read off its trace.
    - [print] and the [log.debug]/[log.info]/[log.warning] messages are left
      out; [log.error] of the executor and of the category worker is kept. *)

From Stdlib Require Import ZArith List String Ascii Bool Lia Permutation Arith.
From Stdlib Require Import Sorted.
Import ListNotations.

Local Open Scope string_scope.
Local Open Scope list_scope.

(** ** Python dictionaries *)

Definition dict : Type := list (string * Z).

(** [d.keys()] *)
Definition keys (d : dict) : list string := map fst d.

(** [d[key]]; [None] stands for [KeyError]. *)
Fixpoint getitem (d : dict) (key : string) : option Z :=
  match d with
  | [] => None
  | (k, v) :: d' => if String.eqb key k then Some v else getitem d' key
  end.

(** [key in d] *)
Definition contains (key : string) (d : dict) : bool :=
  match getitem d key with
  | Some _ => true
  | None => false
  end.

(** [dict_a[key] > dict_b[key]] *)
Definition item_gt (dict_a dict_b : dict) (key : string) : bool :=
  match getitem dict_a key, getitem dict_b key with
  | Some x, Some y => (y <? x)%Z
  | _, _ => false
  end.

(** [{key: dict_a[key] for key in dict_a.keys()
      if key not in dict_b or dict_a[key] > dict_b[key]}] *)
Definition newer_items (dict_a dict_b : dict) : dict :=
  flat_map
    (fun key =>
       if negb (contains key dict_b) || item_gt dict_a dict_b key
       then match getitem dict_a key with
            | Some v => [(key, v)]
            | None => []
            end
       else [])
    (keys dict_a).

(** [dict_compare], lines 238-241. *)
Definition dict_compare (dict_a dict_b : option dict) : option dict :=
  match dict_b with
  | None => dict_a
  | Some b =>
      match dict_a with
      | None => dict_b
      | Some a => Some (newer_items a b)
      end
  end.

(** Python truthiness of an optional dict: [not d]. *)
Definition falsy (d : option dict) : bool :=
  match d with
  | None => true
  | Some [] => true
  | Some (_ :: _) => false
  end.

(** ** Exceptions and results *)

(** What a call can raise.  [except Exception] catches the instances of
    [Exception]; [SystemExit] and [KeyboardInterrupt] derive from
    [BaseException] only. *)
Inductive exn : Type :=
| LoginError
| Exception (what : string)
| SystemExit
| KeyboardInterrupt.

(** [isinstance(e, Exception)] *)
Definition is_Exception (e : exn) : bool :=
  match e with
  | LoginError | Exception _ => true
  | SystemExit | KeyboardInterrupt => false
  end.

(** [isinstance(e, LoginError)] *)
Definition is_LoginError (e : exn) : bool :=
  match e with
  | LoginError => true
  | _ => false
  end.

Inductive result (A : Type) : Type :=
| Ok (a : A)
| Raise (e : exn).
Arguments Ok {A} a.
Arguments Raise {A} e.

(** ** The data of the pipeline *)

Definition Path : Type := list string.

(** [p / name] *)
Definition path_join (p : Path) (name : string) : Path := p ++ [name].

Record Course : Type := mkCourse {
  name : string;
  year : string;
  semester : string;
  semester_type : string;
  ID : string
}.

(** The index of a course: the count of documents per category.  The category
    identifiers it also holds are reached through [get_catID] only. *)
Record CatCount : Type := mkCatCount {
  counts : dict;
  catIDs : list (string * string)
}.

(** [(category, catID, course, full_path)] *)
Definition SyncTask : Type := (string * string * Course * Path)%type.

Definition task_category (t : SyncTask) : string :=
  let '(category, _, _, _) := t in category.

(** An entry of a category's table, as [parse_docs] lists them. *)
Definition RemoteEntry : Type := string.

(** [(Path, str, int, datetime)]: what [get_file] resolves an entry to. *)
Definition FileDescriptor : Type := (Path * string * Z * Z)%type.

(** [str.upper], on ASCII letters. *)
Definition upper_ascii (c : ascii) : ascii :=
  let n := nat_of_ascii c in
  if (97 <=? n)%nat && (n <=? 122)%nat then ascii_of_nat (n - 32) else c.

Fixpoint upper (s : string) : string :=
  match s with
  | EmptyString => EmptyString
  | String c s' => String (upper_ascii c) (upper s')
  end.

(** ** Events: the calls a run makes, in order *)

Inductive Event : Type :=
| ELogin (username password : option string)
| EParseIndex (course : Course)
| EMkdir (p : Path)
| EParseCache (p : Path)
| EStashCache (index : CatCount) (p : Path)
| ECountFiles (p : Path)
| EParseDocs (course : Course) (catID : string)
| EGetFile (entry : RemoteEntry) (folder : Path)
| EDownload (file : FileDescriptor)
| ECommitCache
| ELogError (e : exn).

(** ** The monad of the embedding: world state, exceptions, trace *)

Definition M (W A : Type) : Type := W -> result A * W * list Event.

Definition ret {W A : Type} (a : A) : M W A :=
  fun w => (Ok a, w, []).

Definition raise {W A : Type} (e : exn) : M W A :=
  fun w => (Raise e, w, []).

Definition bind {W A B : Type} (m : M W A) (f : A -> M W B) : M W B :=
  fun w =>
    match m w with
    | (Ok a, w1, t1) =>
        match f a w1 with
        | (r, w2, t2) => (r, w2, t1 ++ t2)
        end
    | (Raise e, w1, t1) => (Raise e, w1, t1)
    end.

Notation "x <- m ;; k" := (bind m (fun x => k))
  (at level 61, m at next level, right associativity).
Notation "m ;;; k" := (bind m (fun _ => k))
  (at level 61, right associativity).

(** A call to a collaborator [h], recorded as the event [ev]. *)
Definition call {W A : Type} (ev : Event) (h : W -> result A * W) : M W A :=
  fun w => match h w with (r, w1) => (r, w1, [ev]) end.

(** A value that a pure lookup returns or raises. *)
Definition lift {W A : Type} (r : result A) : M W A :=
  fun w => (r, w, []).

(** [try: m  except Exception as e: handler e] *)
Definition try_except_Exception {W A : Type}
    (m : M W A) (handler : exn -> M W A) : M W A :=
  fun w =>
    match m w with
    | (Ok a, w1, t1) => (Ok a, w1, t1)
    | (Raise e, w1, t1) =>
        if is_Exception e
        then match handler e w1 with
             | (r, w2, t2) => (r, w2, t1 ++ t2)
             end
        else (Raise e, w1, t1)
    end.

(** The outcome of a computation as a value: what a future holds once its
    call has run.  It never raises. *)
Definition attempt {W A : Type} (m : M W A) : M W (result A) :=
  fun w => match m w with (r, w1, t1) => (Ok r, w1, t1) end.

(** [log.error(...)] *)
Definition log_error {W : Type} (e : exn) : M W unit :=
  fun w => (Ok tt, w, [ELogError e]).

(** ** The collaborators

    [handlers/*.py], [modules/*.py] and [nova_clippy/config.py] are imported by
    [main.py] and absent here: each function is a parameter.  A collaborator
    reads and changes the outside world [W] and returns or raises. *)
Class Handlers (W : Type) : Type := {
  cfg_username : option string;
  cfg_password : option string;
  get_login : option string -> option string -> W -> result string * W;
  parse_index : string -> string -> string -> string -> W -> result CatCount * W;
  get_catID : CatCount -> string -> result string;
  mkdir : Path -> W -> result unit * W;
  parse_cache : Path -> CatCount -> string -> W -> result (option dict) * W;
  stash_cache : CatCount -> Path -> W -> result unit * W;
  count_files_in_subfolders : Path -> W -> result (option dict) * W;
  parse_docs :
    string -> string -> string -> string -> string -> W ->
    result (list RemoteEntry) * W;
  get_file : RemoteEntry -> Path -> W -> result (option FileDescriptor) * W;
  download_file : FileDescriptor -> W -> result (option (list unit)) * W;
  commit_cache : W -> result unit * W
}.

(** ** [threadpool_execute], lines 190-204

    The pool runs every submitted call to its end, whatever it returns or
    raises, and stores the outcome in the call's future.  The calls are taken
    to run one after the other, in the order [order] (a list of positions in
    [items]); [max_workers] bounds how many overlap in time and has no
    counterpart here.  [as_completed] yields the futures in an order of its
    own, [yielded] (a list of positions among the futures): a future that
    is done when the loop starts is yielded in the order of a set, not in
    the order in which the calls ended. *)

(** The items at the positions [order]. *)
Definition pick {X : Type} (order : list nat) (items : list X) : list X :=
  flat_map
    (fun i => match nth_error items i with
              | Some args => [args]
              | None => []
              end)
    order.

Section Executor.
Context {W A R : Type}.

(** A future that is done: the arguments it was submitted with (the value
    [futures[future]]) and what [future.result()] returns or raises. *)
Definition Future : Type := (A * result (option (list R)))%type.

Fixpoint run_pool (worker_function : A -> M W (option (list R)))
    (submitted : list A) : M W (list Future) :=
  match submitted with
  | [] => ret []
  | args :: rest =>
      outcome <- attempt (worker_function args) ;;
      done <- run_pool worker_function rest ;;
      ret ((args, outcome) :: done)
  end.

(** The loop over [cf.as_completed(futures)]. *)
Fixpoint gather (done : list Future) (results : list R) : M W (list R) :=
  match done with
  | [] => ret results
  | (args, outcome) :: rest =>
      results' <-
        try_except_Exception
          (result <- lift outcome ;;
           match result with
           | Some r => ret (results ++ r)
           | None => ret results
           end)
          (fun e => log_error e ;;; ret results) ;;
      gather rest results'
  end.

Definition threadpool_execute
    (worker_function : A -> M W (option (list R)))
    (items : list A) (order yielded : list nat) : M W (list R) :=
  done <- run_pool worker_function (pick order items) ;;
  gather (pick yielded done) [].

(** What a done future adds to [results]. *)
Definition contribution (f : Future) : list R :=
  match snd f with
  | Ok (Some r) => r
  | _ => []
  end.

(** The [log.error] lines the loop writes for the futures [done]. *)
Definition error_log (done : list Future) : list Event :=
  flat_map
    (fun f : Future => match snd f with
                       | Raise e => [ELogError e]
                       | Ok _ => []
                       end)
    done.



(** No future of [done] holds an exception outside [Exception]. *)
Definition all_caught (done : list Future) : Prop :=
  Forall
    (fun f : Future => match snd f with
                       | Raise e => is_Exception e = true
                       | Ok _ => True
                       end)
    done.

End Executor.

(** ** The stages of the pipeline *)
Section Pipeline.
Context {W : Type} {H : Handlers W}.

(** The two loops [for category, count in ....items(): _subcats.append(...)]. *)
Fixpoint append_tasks (index : CatCount) (course : Course) (full_path : Path)
    (_subcats : list SyncTask) (items : dict) : M W (list SyncTask) :=
  match items with
  | [] => ret _subcats
  | (category, _) :: rest =>
      catID <- lift (get_catID index category) ;;
      append_tasks index course full_path
        (_subcats ++ [(category, catID, course, full_path)]) rest
  end.

(** [full_path] of a course under [path], lines 245 and 253-254. *)
Definition course_folder (path : Path) (course : Course) : Path :=
  let path := path_join path (year course) in
  let full_semester :=
    String.append (semester course) (upper (semester_type course)) in
  path_join (path_join path full_semester) (name course).

(** [search_cats_in_course], lines 243-293.  The function falls off its end
    when the index is empty: it returns [None]. *)
Definition search_cats_in_course (path : Path) (course : Course)
  : M W (option (list SyncTask)) :=
  index <- call (EParseIndex course)
             (parse_index (year course) (semester_type course)
                (semester course) (ID course)) ;;
  match counts index with
  | [] => ret None
  | _ :: _ =>
      let full_path := course_folder path course in
      call (EMkdir full_path) (mkdir full_path) ;;;
      cachedict <- call (EParseCache full_path)
                     (parse_cache full_path index (name course)) ;;
      let cachediff := dict_compare (Some (counts index)) cachedict in
      _subcats <-
        match cachediff with
        | None | Some [] => ret []
        | Some ((_ :: _) as diff) =>
            call (EStashCache index full_path) (stash_cache index full_path) ;;;
            append_tasks index course full_path [] diff
        end ;;
      folderdict <- call (ECountFiles full_path)
                      (count_files_in_subfolders full_path) ;;
      let folderdiff := dict_compare cachedict folderdict in
      _subcats <-
        match folderdiff with
        | None | Some [] => ret _subcats
        | Some ((_ :: _) as diff) =>
            append_tasks index course full_path _subcats diff
        end ;;
      ret (Some _subcats)
  end.

(** The loop [for file in table], lines 310-315. *)
Fixpoint resolve_files (table : list RemoteEntry) (folder : Path)
    (_files : list FileDescriptor) : M W (list FileDescriptor) :=
  match table with
  | [] => ret _files
  | file :: rest =>
      _file <- call (EGetFile file folder) (get_file file folder) ;;
      resolve_files rest folder
        match _file with
        | Some f => _files ++ [f]
        | None => _files
        end
  end.

(** The body of the [try] of [search_files_in_category], lines 306-318. *)
Definition search_files_body (category catID : string) (course : Course)
    (full_path : Path) : M W (option (list FileDescriptor)) :=
  table <- call (EParseDocs course catID)
             (parse_docs (year course) (semester_type course)
                (semester course) (ID course) catID) ;;
  _files <- resolve_files table (path_join full_path category) [] ;;
  ret (Some _files).

(** [search_files_in_category], lines 295-322: after the handler the
    function falls off its end and returns [None]. *)
Definition search_files_in_category (category catID : string)
    (course : Course) (full_path : Path)
  : M W (option (list FileDescriptor)) :=
  try_except_Exception
    (search_files_body category catID course full_path)
    (fun ex => log_error ex ;;; ret None).

(** One pass of the body of the [while] of lines 116-124.  Line 119 reads
    [cfg.username] and [cfg.password] on every pass; nothing in the loop
    writes them, and they are taken here as the constants [cfg_username]
    and [cfg_password] of the collaborators. *)
Definition login_attempt (username : option string) (force_relogin : bool)
  : M W string :=
  match username, force_relogin with
  | None, false =>
      call (ELogin cfg_username cfg_password)
        (get_login cfg_username cfg_password)
  | _, _ => call (ELogin username None) (get_login username None)
  end.

(** The loop [while not valid_login], lines 115-124, run for at most [fuel]
    passes: [None] when the loop is still running after them. *)
Fixpoint login_loop (fuel : nat) (username : option string)
    (force_relogin : bool) (w : W)
  : option (result string * W * list Event) :=
  match fuel with
  | O => None
  | S fuel' =>
      match login_attempt username force_relogin w with
      | (Ok user, w1, t1) => Some (Ok user, w1, t1)
      | (Raise e, w1, t1) =>
          if is_LoginError e
          then match login_loop fuel' username force_relogin w1 with
               | Some (r, w2, t2) => Some (r, w2, t1 ++ t2)
               | None => None
               end
          else Some (Raise e, w1, t1)
      end
  end.

(** Steps 2 to 5 of [main], lines 152-174.  [sched stage n] is the order in
    which the [n] calls of a stage run, [yielded stage n] the order in which
    their futures are yielded. *)
Definition sync_stages (sched yielded : nat -> nat -> list nat) (path : Path)
    (courses : list Course) : M W (list FileDescriptor) :=
  subcats <-
    threadpool_execute
      (fun '(path, course) => search_cats_in_course path course)
      (map (fun course => (path, course)) courses)
      (sched 2%nat (List.length courses))
      (yielded 2%nat (List.length courses)) ;;
  files <-
    threadpool_execute
      (fun '(category, catID, course, full_path) =>
         search_files_in_category category catID course full_path)
      subcats (sched 3%nat (List.length subcats))
      (yielded 3%nat (List.length subcats)) ;;
  match files with
  | [] => ret []
  | _ :: _ =>
      threadpool_execute
        (fun file => call (EDownload file) (download_file file))
        files (sched 4%nat (List.length files))
        (yielded 4%nat (List.length files))
  end ;;;
  call ECommitCache commit_cache ;;;
  ret files.
End Pipeline.

(** [order] lists every position below [n] once: an order in which [n]
    submitted calls run, or in which their [n] futures are yielded. *)
Definition is_order (n : nat) (order : list nat) : bool :=
  (List.length order =? n)%nat
  && forallb (fun i => existsb (Nat.eqb i) order) (seq 0 n).

(** The result of a run, its final world and its trace. *)
Definition result_of {W A : Type} (x : result A * W * list Event) : result A :=
  fst (fst x).
Definition world_of {W A : Type} (x : result A * W * list Event) : W :=
  snd (fst x).
Definition trace_of {W A : Type} (x : result A * W * list Event) : list Event :=
  snd x.

(** The events of resolving listings (stage 3) and of downloading (stage 4). *)
Definition is_fetch_event (ev : Event) : bool :=
  match ev with
  | EParseDocs _ _ | EGetFile _ _ | EDownload _ => true
  | _ => false
  end.

Definition is_stash_event (ev : Event) : bool :=
  match ev with
  | EStashCache _ _ => true
  | _ => false
  end.

Definition is_mkdir_event (ev : Event) : bool :=
  match ev with
  | EMkdir _ => true
  | _ => false
  end.

(** The tasks of one of the two loops, given the identifiers [get_catID]
    resolved. *)
Definition tasks_of (ids : string -> string) (course : Course)
    (full_path : Path) (diff : option dict) : list SyncTask :=
  match diff with
  | None => []
  | Some d => map (fun category => (category, ids category, course, full_path)) (keys d)
  end.

(** How many tasks of [tasks] are for [category]. *)
Definition tasks_for (category : string) (tasks : list SyncTask) : nat :=
  count_occ string_dec (map task_category tasks) category.

(** The keys of an optional dict ([None] has none). *)
Definition keys_of (d : option dict) : list string :=
  match d with
  | None => []
  | Some d => keys d
  end.

(** The condition of the comprehension of [dict_compare]. *)
Definition is_newer (dict_a dict_b : dict) (key : string) : bool :=
  negb (contains key dict_b) || item_gt dict_a dict_b key.


Section Runs.
Context {W : Type} {H : Handlers W}.

(** The index resolves the identifier of every category of [ks], to
    [ids k]. *)
Definition resolves (index : CatCount) (ids : string -> string)
    (ks : list string) : Prop :=
  forall k, In k ks -> get_catID index k = Ok (ids k).

(** The calls of [search_cats_in_course path course] from the world [w]
    return: the server lists [index], the folder is made, the cache holds
    [cachedict], the record is staged when the server diff is not empty,
    and the folder holds [folderdict]; the world is then [w']. *)
Definition course_run (path : Path) (course : Course) (w : W)
    (index : CatCount) (cachedict folderdict : option dict) (w' : W)
  : Prop :=
  let full_path := course_folder path course in
  exists w1 w2 w3 w4,
    parse_index (year course) (semester_type course) (semester course)
      (ID course) w = (Ok index, w1)
    /\ mkdir full_path w1 = (Ok tt, w2)
    /\ parse_cache full_path index (name course) w2 = (Ok cachedict, w3)
    /\ (if falsy (dict_compare (Some (counts index)) cachedict)
        then w4 = w3
        else stash_cache index full_path w3 = (Ok tt, w4))
    /\ count_files_in_subfolders full_path w4 = (Ok folderdict, w').

(** The calls [search_cats_in_course path course] makes when those of
    [course_run] return. *)
Definition course_trace (path : Path) (course : Course) (index : CatCount)
    (cachedict : option dict) : list Event :=
  let full_path := course_folder path course in
  [EParseIndex course; EMkdir full_path; EParseCache full_path]
  ++ (if falsy (dict_compare (Some (counts index)) cachedict)
      then []
      else [EStashCache index full_path])
  ++ [ECountFiles full_path].

(** [rejected k w w' t]: from [w], [k] login attempts in a row raise
    [LoginError]; they leave the world in [w'] and make the calls [t]. *)
Inductive rejected (username : option string) (force_relogin : bool)
  : nat -> W -> W -> list Event -> Prop :=
| rejected_O : forall w, rejected username force_relogin 0 w w []
| rejected_S : forall k w w1 w2 t1 t2,
    login_attempt username force_relogin w = (Raise LoginError, w1, t1) ->
    rejected username force_relogin k w1 w2 t2 ->
    rejected username force_relogin (S k) w w2 (t1 ++ t2).
End Runs.

(** Every call that [m] makes, from any world, satisfies [P]. *)
Definition emits {W A : Type} (P : Event -> Prop) (m : M W A) : Prop :=
  forall w, Forall P (trace_of (m w)).

Definition not_fetch (ev : Event) : Prop := is_fetch_event ev = false.
Definition not_stash (ev : Event) : Prop := is_stash_event ev = false.

(** ** The rest of [main.py]: the target folder, the academic year, [main] *)

(** A call to a collaborator that the trace does not record (prompts,
    queries of the file system, the pages outside the sync engine). *)
Definition ask {W A : Type} (h : W -> result A * W) : M W A :=
  fun w => match h w with (r, w1) => (r, w1, []) end.

(** The collaborators of the parts of [main.py] outside the sync engine:
    [pathlib], the prompts of [InquirerPy], [handlers/HTML_parser.py] and
    [nova_clippy/config.py].  [years] maps the label of a year to its key. *)
Class Console (W : Type) : Type := {
  cwd : W -> result Path * W;
  exists_ : Path -> W -> result bool * W;
  is_dir : Path -> W -> result bool * W;
  confirm : Path -> W -> result bool * W;
  filepath : Path -> W -> result Path * W;
  parse_years : string -> W -> result (list (string * string)) * W;
  rawlist : list (string * string) -> W -> result string * W;
  parse_courses : string -> string -> W -> result (list Course) * W;
  save_config : W -> result unit * W
}.

(** Computations that may still be running when their fuel is spent. *)
Definition MF (W A : Type) : Type :=
  W -> option (result A * W * list Event).

Definition liftF {W A : Type} (m : M W A) : MF W A :=
  fun w => Some (m w).

Definition bindF {W A B : Type} (m : MF W A) (f : A -> MF W B) : MF W B :=
  fun w =>
    match m w with
    | None => None
    | Some (Ok a, w1, t1) =>
        match f a w1 with
        | None => None
        | Some (r, w2, t2) => Some (r, w2, t1 ++ t2)
        end
    | Some (Raise e, w1, t1) => Some (Raise e, w1, t1)
    end.

(** [path.name]: the last component. *)
Definition path_name (p : Path) : string := last p "".

(** [sorted(l)] on strings, by insertion. *)
Fixpoint insert_sorted (x : string) (l : list string) : list string :=
  match l with
  | [] => [x]
  | y :: l' => if String.leb x y then x :: y :: l' else y :: insert_sorted x l'
  end.

Fixpoint sorted (l : list string) : list string :=
  match l with
  | [] => []
  | x :: l' => insert_sorted x (sorted l')
  end.

Section Main.
Context {W : Type} {H : Handlers W} {C : Console W}.

(** [query_path], lines 231-236: the prompt, and the path entered. *)
Definition query_path (path : Path) : M W Path := ask (filepath path).

(** Lines 207-209 of [check_path]: the folder to use when none is given. *)
Definition default_path (path : option Path) : M W Path :=
  match path with
  | None =>
      here <- ask cwd ;;
      ret (if String.eqb (path_name here) "CLIP"
           then here
           else path_join here "CLIP")
  | Some p => ret p
  end.

(** [check_path], lines 206-229, with at most [fuel] nested calls.  The
    value of the nested call is not used: the function returns [path]. *)
Fixpoint check_path (fuel : nat) (path : option Path) : MF W Path :=
  match fuel with
  | O => fun _ => None
  | S fuel' =>
      bindF (liftF (default_path path)) (fun path =>
      bindF (liftF (ask (exists_ path))) (fun found =>
      if negb found
      then
        bindF (liftF (ask (confirm path))) (fun yes =>
        if yes
        then liftF (call (EMkdir path) (mkdir path) ;;; ret path)
        else
          bindF (liftF (query_path path)) (fun path =>
          bindF (check_path fuel' (Some path)) (fun _ =>
          liftF (ret path))))
      else
        bindF (liftF (ask (is_dir path))) (fun dir =>
        if negb dir
        then
          bindF (liftF (query_path path)) (fun path =>
          bindF (check_path fuel' (Some path)) (fun _ =>
          liftF (ret path)))
        else liftF (ret path))))
  end.

(** The choice of the academic year, lines 126-145.  [exit()] raises
    [SystemExit]. *)
Definition choose_year (user : string) (auto : bool) : M W string :=
  years <- ask (parse_years user) ;;
  match years with
  | [] => raise SystemExit
  | [(_, year)] => ret year
  | _ :: _ :: _ =>
      if auto
      then ret (last (sorted (map snd years)) "")
      else ask (rawlist years)
  end.

(** [main] from the choice of the year on, lines 126-187. *)
Definition main_after_login (sched yielded : nat -> nat -> list nat)
    (path : Path) (user : string) (auto : bool) : M W unit :=
  year <- choose_year user auto ;;
  courses <- ask (parse_courses year user) ;;
  sync_stages sched yielded path courses ;;;
  ask save_config.

End Main.

(** A worker whose outcome depends on its arguments only. *)
Definition pure_worker {W A R : Type} (f : A -> result (option (list R)))
    (args : A) : M W (option (list R)) :=
  lift (f args).

(** What a pure worker's outcome on [args] adds to the results. *)
Definition yield {A R : Type} (f : A -> result (option (list R))) (args : A)
  : list R :=
  match f args with
  | Ok (Some r) => r
  | _ => []
  end.

(** [answered folder table w ds w']: starting in [w], the calls
    [get_file entry folder] for the entries of [table], one call per entry
    and in that order, each in the world the call before it left, all
    returned; [ds] lists what they returned and [w'] is the world they
    left. *)
Inductive answered {W : Type} {H : Handlers W} (folder : Path)
  : list RemoteEntry -> W -> list (option FileDescriptor) -> W -> Prop :=
| answered_nil : forall w, answered folder [] w [] w
| answered_cons : forall entry rest w w1 w2 d ds,
    get_file entry folder w = (Ok d, w1) ->
    answered folder rest w1 ds w2 ->
    answered folder (entry :: rest) w (d :: ds) w2.

(** The descriptors among the answers of [get_file]: an answer [None] (a
    file already there) gives none. *)
Definition descriptors (ds : list (option FileDescriptor))
  : list FileDescriptor :=
  flat_map (fun d => match d with Some f => [f] | None => [] end) ds.

(** [b] counts, for every key of [a], at least what [a] counts. *)
Definition covers (a b : dict) : Prop :=
  forall k x, getitem a k = Some x ->
  exists y, getitem b k = Some y /\ (x <= y)%Z.

(** The files the calls of a trace download, in order. *)
Definition downloads_of (t : list Event) : list FileDescriptor :=
  flat_map (fun ev => match ev with
                      | EDownload file => [file]
                      | _ => []
                      end) t.

(** The calls of the diff stage and of the listing stage, and the errors
    the executor logs. *)
Definition is_scan_event (ev : Event) : bool :=
  match ev with
  | EParseIndex _ | EMkdir _ | EParseCache _ | EStashCache _ _
  | ECountFiles _ | EParseDocs _ _ | EGetFile _ _ | ELogError _ => true
  | _ => false
  end.

(** The calls of the download stage, and the errors the executor logs. *)
Definition is_transfer_event (ev : Event) : bool :=
  match ev with
  | EDownload _ | ELogError _ => true
  | _ => false
  end.

(** ** A concrete world

    One course on a server, its folder on disk and its cache record: an
    instance of the collaborators, used to run the functions above on
    explicit inputs. *)
Module Demo.

Record World : Type := mkWorld {
  server : CatCount;
  persisted : option dict;
  folder : option dict;
  dirs : list Path;
  table : list RemoteEntry;
  docs_raise : option exn;
  rejected_logins : option nat
}.

Definition set_persisted (d : option dict) (w : World) : World :=
  mkWorld (server w) d (folder w) (dirs w) (table w) (docs_raise w)
    (rejected_logins w).

Definition add_dir (p : Path) (w : World) : World :=
  mkWorld (server w) (persisted w) (folder w) (p :: dirs w) (table w)
    (docs_raise w) (rejected_logins w).

Definition set_rejected (n : option nat) (w : World) : World :=
  mkWorld (server w) (persisted w) (folder w) (dirs w) (table w)
    (docs_raise w) n.

Fixpoint lookup_id (ids : list (string * string)) (category : string)
  : result string :=
  match ids with
  | [] => Raise (Exception "KeyError")
  | (k, v) :: rest =>
      if String.eqb category k then Ok v else lookup_id rest category
  end.

(** Modelled from the spec: [handlers/cache_handler.py],
    [handlers/file_handler.py], [handlers/HTML_parser.py] and
    [handlers/get_login.py] are absent.  [parse_cache] returns the persisted
    record, or an empty mapping when there is none; [stash_cache] overwrites
    the persisted record with the counts of the live index;
    [count_files_in_subfolders] returns the inventory of the folder.  The
    login service rejects the first [rejected_logins] attempts, or every
    attempt when that is [None]. *)
#[global] Instance handlers : Handlers World := {|
  cfg_username := Some "student";
  cfg_password := Some "secret";
  get_login := fun _ _ w =>
    match rejected_logins w with
    | None => (Raise LoginError, w)
    | Some O => (Ok "session", w)
    | Some (S n) => (Raise LoginError, set_rejected (Some n) w)
    end;
  parse_index := fun _ _ _ _ w => (Ok (server w), w);
  get_catID := fun index category => lookup_id (catIDs index) category;
  mkdir := fun p w => (Ok tt, add_dir p w);
  parse_cache := fun _ _ _ w =>
    (Ok (Some match persisted w with Some d => d | None => [] end), w);
  stash_cache := fun index _ w => (Ok tt, set_persisted (Some (counts index)) w);
  count_files_in_subfolders := fun _ w => (Ok (folder w), w);
  parse_docs := fun _ _ _ _ _ w =>
    match docs_raise w with
    | Some e => (Raise e, w)
    | None => (Ok (table w), w)
    end;
  get_file := fun entry target w =>
    if String.eqb entry "broken.pdf"
    then (Raise (Exception "OSError"), w)
    else (Ok (Some (path_join target entry, entry, 0%Z, 0%Z)), w);
  download_file := fun _ w => (Ok None, w);
  commit_cache := fun w => (Ok tt, w)
|}.

Definition slides_exercises : CatCount :=
  mkCatCount [("Slides", 3%Z); ("Exercises", 1%Z)]
             [("Slides", "c1"); ("Exercises", "c2")].

Definition slides3 : CatCount :=
  mkCatCount [("Slides", 3%Z)] [("Slides", "c1")].

Definition no_documents : CatCount := mkCatCount [] [].

Definition algebra : Course := mkCourse "Algebra" "2024" "1" "s" "11504".

Definition clip : Path := ["CLIP"].

Definition world (index : CatCount) (cache folder : option dict) : World :=
  mkWorld index cache folder [] ["a.pdf"; "b.pdf"] None (Some O).

(** A worker for the executor: it returns a list, returns [None], raises an
    [Exception] or exits the interpreter, by its argument. *)
Definition worker (n : nat) : M World (option (list nat)) :=
  match n with
  | 0%nat => ret (Some [10; 11]%nat)
  | 1%nat => raise (Exception "ValueError")
  | 2%nat => ret None
  | 3%nat => raise SystemExit
  | _ => ret (Some [n])
  end.

(** The identifiers of the categories of the two indexes above. *)
Definition ids (category : string) : string :=
  if String.eqb category "Slides" then "c1" else "c2".

(** The folder of [algebra] under [clip]. *)
Definition algebra_folder : Path := ["CLIP"; "2024"; "1S"; "Algebra"].

(** The task of the category "Slides" of [algebra]. *)
Definition slides_task : SyncTask := ("Slides", "c1", algebra, algebra_folder).

(** A world whose listing call raises [e]. *)
Definition broken_listing (e : exn) : World :=
  mkWorld slides3 None None [] [] (Some e) (Some O).

(** A world whose listing holds an entry that cannot be resolved. *)
Definition broken_file : World :=
  mkWorld slides3 None None [] ["a.pdf"; "broken.pdf"; "c.pdf"] None (Some O).

(** A world whose login service accepts the attempt after [n] rejections,
    or never when [n] is [None]. *)
Definition login_world (n : option nat) : World :=
  mkWorld slides3 None None [] [] None n.

End Demo.

(** ** A concrete desk: the world above with a user in front of it

    The engine of [Demo], the paths that exist beside the folders the engine
    made, the answers the user will give to the prompts, and the years and
    courses the server lists. *)
Module Desk.

Record World : Type := mkWorld {
  engine : Demo.World;
  here : Path;
  folders : list Path;
  plain_files : list Path;
  answers : list bool;
  entered : list Path;
  years : list (string * string);
  picked : string;
  courses : list Course;
  login_raises : option exn;
  saved : bool
}.

Definition set_engine (e : Demo.World) (w : World) : World :=
  mkWorld e (here w) (folders w) (plain_files w) (answers w) (entered w)
    (years w) (picked w) (courses w) (login_raises w) (saved w).

Definition set_answers (a : list bool) (w : World) : World :=
  mkWorld (engine w) (here w) (folders w) (plain_files w) a (entered w)
    (years w) (picked w) (courses w) (login_raises w) (saved w).

Definition set_entered (p : list Path) (w : World) : World :=
  mkWorld (engine w) (here w) (folders w) (plain_files w) (answers w) p
    (years w) (picked w) (courses w) (login_raises w) (saved w).

Definition set_saved (w : World) : World :=
  mkWorld (engine w) (here w) (folders w) (plain_files w) (answers w)
    (entered w) (years w) (picked w) (courses w) (login_raises w) true.

Definition path_eqb (p q : Path) : bool :=
  if list_eq_dec string_dec p q then true else false.

Definition is_folder (p : Path) (w : World) : bool :=
  existsb (path_eqb p) (folders w ++ Demo.dirs (engine w)).

Definition is_plain_file (p : Path) (w : World) : bool :=
  existsb (path_eqb p) (plain_files w).

(** A collaborator of the engine, run on the engine of the desk. *)
Definition on_engine {A : Type} (h : Demo.World -> result A * Demo.World)
    (w : World) : result A * World :=
  match h (engine w) with (r, e) => (r, set_engine e w) end.

#[global] Instance handlers : Handlers World := {|
  cfg_username := Some "student";
  cfg_password := Some "secret";
  get_login := fun u p w =>
    match login_raises w with
    | Some e => (Raise e, w)
    | None => on_engine (get_login u p) w
    end;
  parse_index := fun a b c d => on_engine (parse_index a b c d);
  get_catID := fun index category => Demo.lookup_id (catIDs index) category;
  mkdir := fun p => on_engine (mkdir p);
  parse_cache := fun p i n => on_engine (parse_cache p i n);
  stash_cache := fun i p => on_engine (stash_cache i p);
  count_files_in_subfolders := fun p => on_engine (count_files_in_subfolders p);
  parse_docs := fun a b c d e => on_engine (parse_docs a b c d e);
  get_file := fun entry target => on_engine (get_file entry target);
  download_file := fun f => on_engine (download_file f);
  commit_cache := on_engine commit_cache
|}.

(** Modelled from the spec: [pathlib], [InquirerPy], [parse_years],
    [parse_courses] and [nova_clippy/config.py] are absent.  The user answers
    the prompts with [answers] and [entered], in order; a prompt with no
    answer left is interrupted. *)
#[global] Instance console : Console World := {|
  cwd := fun w => (Ok (here w), w);
  exists_ := fun p w => (Ok (is_folder p w || is_plain_file p w), w);
  is_dir := fun p w => (Ok (is_folder p w), w);
  confirm := fun _ w =>
    match answers w with
    | [] => (Raise KeyboardInterrupt, w)
    | a :: rest => (Ok a, set_answers rest w)
    end;
  filepath := fun _ w =>
    match entered w with
    | [] => (Raise KeyboardInterrupt, w)
    | p :: rest => (Ok p, set_entered rest w)
    end;
  parse_years := fun _ w => (Ok (years w), w);
  rawlist := fun _ w => (Ok (picked w), w);
  parse_courses := fun _ _ w => (Ok (courses w), w);
  save_config := fun w => (Ok tt, set_saved w)
|}.

(** A desk in the folder [home], with nothing on disk. *)
Definition desk (home : Path) (answers : list bool) (entered : list Path)
    (years : list (string * string)) : World :=
  mkWorld (Demo.world Demo.slides3 None (Some [])) home [] [] answers entered
    years "2023" [Demo.algebra] None false.

(** A desk whose login call fails with [e]. *)
Definition offline (e : exn) : World :=
  mkWorld (Demo.world Demo.slides3 None (Some [])) ["home"] [] [] [] [] []
    "2023" [] (Some e) false.

End Desk.

(** ** A concrete world whose cache loader returns [None]

    The engine of [Demo], with a [parse_cache] that returns [None] when no
    record is persisted. *)
Module NoCache.

Record World : Type := mkWorld { engine : Demo.World }.

Definition on_engine {A : Type} (h : Demo.World -> result A * Demo.World)
    (w : World) : result A * World :=
  match h (engine w) with (r, e) => (r, mkWorld e) end.

#[global] Instance handlers : Handlers World := {|
  cfg_username := Some "student";
  cfg_password := Some "secret";
  get_login := fun u p => on_engine (get_login u p);
  parse_index := fun a b c d => on_engine (parse_index a b c d);
  get_catID := fun index category => Demo.lookup_id (catIDs index) category;
  mkdir := fun p => on_engine (mkdir p);
  parse_cache := fun _ _ _ w => (Ok (Demo.persisted (engine w)), w);
  stash_cache := fun i p => on_engine (stash_cache i p);
  count_files_in_subfolders := fun p => on_engine (count_files_in_subfolders p);
  parse_docs := fun a b c d e => on_engine (parse_docs a b c d e);
  get_file := fun entry target => on_engine (get_file entry target);
  download_file := fun f => on_engine (download_file f);
  commit_cache := on_engine commit_cache
|}.

End NoCache.

(** * Properties *)

(** ** The diff of two count mappings *)

Lemma contains_keys (d : dict) (key : string) :
  contains key d = existsb (String.eqb key) (keys d).
Proof.
  unfold contains.
  induction d as [|[k v] d IH]; simpl; [reflexivity|].
  destruct (String.eqb key k); simpl; [reflexivity | exact IH].
Qed.

Lemma getitem_not_contains (d : dict) (key : string) :
  contains key d = false -> getitem d key = None.
Proof.
  unfold contains. destruct (getitem d key); [discriminate | reflexivity].
Qed.

Lemma getitem_newer_among (dict_a dict_b : dict) (ks : list string) (key : string) :
  getitem
    (flat_map
       (fun key =>
          if negb (contains key dict_b) || item_gt dict_a dict_b key
          then match getitem dict_a key with
               | Some v => [(key, v)]
               | None => []
               end
          else [])
       ks) key
  = if existsb (String.eqb key) ks && is_newer dict_a dict_b key
    then getitem dict_a key
    else None.
Proof.
  induction ks as [|k ks IH]; simpl; [reflexivity|].
  fold (is_newer dict_a dict_b k).
  destruct (String.eqb key k) eqn:Ek; simpl.
  - apply String.eqb_eq in Ek. subst k.
    destruct (is_newer dict_a dict_b key) eqn:En; simpl.
    + destruct (getitem dict_a key) as [v|] eqn:Eg; simpl.
      * rewrite String.eqb_refl. reflexivity.
      * rewrite IH. destruct (existsb _ ks); reflexivity.
    + rewrite IH, andb_false_r. reflexivity.
  - destruct (is_newer dict_a dict_b k); simpl; [|exact IH].
    destruct (getitem dict_a k) as [v|]; simpl; [|exact IH].
    rewrite Ek. exact IH.
Qed.

Lemma getitem_newer_items (dict_a dict_b : dict) (key : string) :
  getitem (newer_items dict_a dict_b) key
  = if is_newer dict_a dict_b key then getitem dict_a key else None.
Proof.
  unfold newer_items. rewrite getitem_newer_among, <- contains_keys.
  destruct (contains key dict_a) eqn:Ec; simpl; [reflexivity|].
  rewrite (getitem_not_contains _ _ Ec).
  destruct (is_newer dict_a dict_b key); reflexivity.
Qed.

Lemma is_newer_true (dict_a dict_b : dict) (key : string) (v : Z) :
  getitem dict_a key = Some v ->
  is_newer dict_a dict_b key = true <->
  (contains key dict_b = false
   \/ exists w, getitem dict_b key = Some w /\ (w < v)%Z).
Proof.
  intros Ha. unfold is_newer, item_gt, contains. rewrite Ha.
  destruct (getitem dict_b key) as [w|]; simpl.
  - rewrite Z.ltb_lt. split.
    + intros Hlt. right. exists w. split; [reflexivity | exact Hlt].
    + intros [Hc | [w' [Hw Hlt]]]; [discriminate|].
      injection Hw as <-. exact Hlt.
  - split; [intros _; left; reflexivity | reflexivity].
Qed.

(** The keys of the diff are keys of [dict_a], in the order of [dict_a]. *)
Lemma keys_newer_items (dict_a dict_b : dict) :
  keys (newer_items dict_a dict_b)
  = filter (fun key => is_newer dict_a dict_b key && contains key dict_a)
      (keys dict_a).
Proof.
  unfold newer_items.
  induction (keys dict_a) as [|k ks IH]; simpl; [reflexivity|].
  fold (is_newer dict_a dict_b k). unfold keys in *. rewrite map_app, IH.
  unfold contains.
  destruct (is_newer dict_a dict_b k); simpl; [|reflexivity].
  destruct (getitem dict_a k); reflexivity.
Qed.

(** A diff of a dict without repeated keys has no repeated keys. *)
Lemma NoDup_keys_newer_items (dict_a dict_b : dict) :
  NoDup (keys dict_a) -> NoDup (keys (newer_items dict_a dict_b)).
Proof.
  intros Hnd. rewrite keys_newer_items. apply NoDup_filter. exact Hnd.
Qed.

(** C1: for mappings [a] and [b] that are not [None], [dict_compare a b] is a
    mapping whose keys are exactly the keys [k] of [a] with [k] not in [b] or
    [a[k] > b[k]], each with the value [a[k]]; a key whose value in [a] is at
    most its value in [b] is not in it; and no key is repeated in it when
    none is in [a]. *)
Theorem dict_compare_sound_complete (a b : dict) :
  exists d,
    dict_compare (Some a) (Some b) = Some d
    /\ (forall k v,
          getitem d k = Some v <->
          getitem a k = Some v
          /\ (contains k b = false
              \/ exists w, getitem b k = Some w /\ (w < v)%Z))
    /\ (forall k x y,
          getitem a k = Some x -> getitem b k = Some y -> (x <= y)%Z ->
          contains k d = false)
    /\ (NoDup (keys a) -> NoDup (keys d)).
Proof.
  exists (newer_items a b). split; [reflexivity|].
  split; [|split; [|apply NoDup_keys_newer_items]].
  - intros k v. rewrite getitem_newer_items. split.
    + destruct (is_newer a b k) eqn:En; [|discriminate].
      intros Ha. split; [exact Ha|].
      apply (is_newer_true a b k v Ha). exact En.
    + intros [Ha Hcond]. apply (is_newer_true a b k v Ha) in Hcond.
      rewrite Hcond. exact Ha.
  - intros k x y Ha Hb Hle. unfold contains.
    rewrite getitem_newer_items.
    destruct (is_newer a b k) eqn:En; [|reflexivity].
    apply (is_newer_true a b k x Ha) in En.
    destruct En as [Hc | [w [Hw Hlt]]].
    + unfold contains in Hc. rewrite Hb in Hc. discriminate.
    + rewrite Hb in Hw. injection Hw as <-. lia.
Qed.

(** C2: [dict_compare] returns its first argument when the second is [None],
    and its second argument when the first is [None]. *)
Theorem dict_compare_absent :
  (forall a : option dict, dict_compare a None = a)
  /\ (forall b : option dict, dict_compare None b = b).
Proof.
  split.
  - intros a. reflexivity.
  - intros [b|]; reflexivity.
Qed.

Lemma getitem_In (d : dict) (k : string) (v : Z) :
  NoDup (keys d) -> In (k, v) d -> getitem d k = Some v.
Proof.
  induction d as [|[k' v'] d IH]; simpl; [contradiction|].
  intros Hnd [Heq | Hin].
  - injection Heq as -> ->. rewrite String.eqb_refl. reflexivity.
  - inversion Hnd as [|k0 ks Hnotin Hnd']; subst.
    destruct (String.eqb k k') eqn:E.
    + apply String.eqb_eq in E. subst k'.
      exfalso. apply Hnotin. apply (in_map fst _ _ Hin).
    + apply IH; assumption.
Qed.

(** Against an empty mapping every key of [a] is new: the first half of C2
    read with the empty dict for the absent one (when [a] has no repeated
    key, which holds of every Python dict). *)
Lemma dict_compare_empty_r (a : dict) :
  NoDup (keys a) -> dict_compare (Some a) (Some []) = Some a.
Proof.
  intros Hnd. simpl. f_equal. unfold newer_items.
  assert (Hgen : forall d : dict,
             (forall k v, In (k, v) d -> getitem a k = Some v) ->
             flat_map
               (fun key =>
                  if negb (contains key []) || item_gt a [] key
                  then match getitem a key with
                       | Some v => [(key, v)]
                       | None => []
                       end
                  else [])
               (keys d) = d).
  { induction d as [|[k v] d IH]; intros Hd; simpl; [reflexivity|].
    rewrite (Hd k v (or_introl eq_refl)). simpl. f_equal.
    apply IH. intros k0 v0 Hin. apply Hd. right. exact Hin. }
  apply Hgen. intros k v Hin. apply getitem_In; assumption.
Qed.

(** An empty first mapping has nothing new. *)
Lemma dict_compare_empty_l (b : dict) :
  dict_compare (Some []) (Some b) = Some [].
Proof. reflexivity. Qed.

(** X1: the diff of a mapping against itself is empty. *)
Theorem dict_compare_self (a : dict) :
  dict_compare (Some a) (Some a) = Some [].
Proof.
  simpl. f_equal. unfold newer_items.
  assert (Hgen : forall ks : list string,
             incl ks (keys a) ->
             flat_map
               (fun key =>
                  if negb (contains key a) || item_gt a a key
                  then match getitem a key with
                       | Some v => [(key, v)]
                       | None => []
                       end
                  else [])
               ks = []).
  { induction ks as [|k ks IH]; intros Hincl; simpl; [reflexivity|].
    assert (Hk : contains k a = true).
    { rewrite contains_keys. apply existsb_exists. exists k.
      split; [apply Hincl; left; reflexivity | apply String.eqb_refl]. }
    rewrite Hk. unfold item_gt. unfold contains in Hk.
    destruct (getitem a k) as [x|]; [|discriminate].
    rewrite Z.ltb_irrefl. simpl.
    apply IH. intros k' Hk'. apply Hincl. right. exact Hk'. }
  apply Hgen. apply incl_refl.
Qed.

(** X2: the diff lists its keys in the order in which [dict_a] lists them. *)
Theorem dict_compare_keeps_order (a b : dict) :
  exists d,
    dict_compare (Some a) (Some b) = Some d
    /\ keys d
       = filter (fun key => is_newer a b key && contains key a) (keys a).
Proof.
  exists (newer_items a b). split; [reflexivity | apply keys_newer_items].
Qed.

(** The second scenario of the specification: the cache record counts the
    three slides, the server also lists an exercise; the diff is the
    exercise alone. *)
Example dict_compare_new_category :
  dict_compare (Some [("Slides", 3%Z); ("Exercises", 1%Z)])
    (Some [("Slides", 3%Z)])
  = Some [("Exercises", 1%Z)].
Proof. reflexivity. Qed.

(** ** The executor *)

Lemma is_order_Permutation (n : nat) (order : list nat) :
  is_order n order = true -> Permutation order (seq 0 n).
Proof.
  unfold is_order. intros Ho. apply andb_prop in Ho. destruct Ho as [Hlen Hall].
  apply Nat.eqb_eq in Hlen. symmetry.
  apply NoDup_Permutation_bis.
  - apply seq_NoDup.
  - rewrite length_seq. lia.
  - intros i Hi. rewrite forallb_forall in Hall.
    specialize (Hall i Hi). apply existsb_exists in Hall.
    destruct Hall as [j [Hj Heq]]. apply Nat.eqb_eq in Heq. subst j. exact Hj.
Qed.

Lemma pick_all_from {X : Type} (pre items : list X) :
  flat_map
    (fun i => match nth_error (pre ++ items) i with
              | Some args => [args]
              | None => []
              end)
    (seq (List.length pre) (List.length items))
  = items.
Proof.
  revert pre. induction items as [|x items IH]; intros pre; simpl.
  - reflexivity.
  - rewrite nth_error_app2 by lia. rewrite Nat.sub_diag. simpl. f_equal.
    specialize (IH (pre ++ [x])).
    rewrite <- app_assoc, length_app in IH. simpl in IH.
    rewrite Nat.add_1_r in IH. exact IH.
Qed.

Lemma pick_Permutation {X : Type} (order : list nat) (items : list X) :
  is_order (List.length items) order = true ->
  Permutation (pick order items) items.
Proof.
  intros Ho. apply is_order_Permutation in Ho.
  unfold pick. rewrite (Permutation_flat_map _ Ho).
  pose proof (pick_all_from [] items) as Hall. simpl in Hall.
  rewrite Hall. apply Permutation_refl.
Qed.

Section ExecutorFacts.
Context {W A R : Type}.
Variable worker_function : A -> M W (option (list R)).


(** When every exception held by a future is an [Exception], the loop
    extends [results] by every list returned and logs every exception. *)
Lemma gather_all_caught (done : list (@Future A R)) (results : list R) (w : W) :
  all_caught done ->
  gather done results w
  = (Ok (results ++ flat_map contribution done), w, error_log done).
Proof.
  revert results. induction done as [|[args outcome] done IH];
    intros results Hall; simpl.
  - rewrite app_nil_r. reflexivity.
  - inversion Hall as [|f fs Hf Hrest]; subst. simpl in Hf.
    unfold bind, try_except_Exception, lift, log_error, ret.
    destruct outcome as [[r|]|e]; simpl.
    + rewrite (IH _ Hrest). unfold contribution at 2. simpl.
      rewrite app_assoc. reflexivity.
    + rewrite (IH _ Hrest). reflexivity.
    + rewrite Hf. rewrite (IH _ Hrest). reflexivity.
Qed.

(** What the loop raises is held by a future and is no [Exception]. *)
Lemma gather_raises (done : list (@Future A R)) (results : list R) (w : W)
    (e : exn) :
  result_of (gather done results w) = Raise e ->
  is_Exception e = false /\ exists args, In (args, Raise e) done.
Proof.
  revert results w. induction done as [|[args outcome] done IH];
    intros results w; simpl.
  - discriminate.
  - unfold bind, try_except_Exception, lift, log_error, ret.
    destruct outcome as [[r|]|e0]; simpl.
    + destruct (gather done (results ++ r) w) as [[r' w'] t'] eqn:Eg.
      intros Hr. unfold result_of in Hr. simpl in Hr. subst r'.
      destruct (IH (results ++ r) w) as [Hne [a Hin]].
      { rewrite Eg. reflexivity. }
      split; [exact Hne|]. exists a. right. exact Hin.
    + destruct (gather done results w) as [[r' w'] t'] eqn:Eg.
      intros Hr. unfold result_of in Hr. simpl in Hr. subst r'.
      destruct (IH results w) as [Hne [a Hin]].
      { rewrite Eg. reflexivity. }
      split; [exact Hne|]. exists a. right. exact Hin.
    + destruct (is_Exception e0) eqn:Ee; simpl.
      * destruct (gather done results w) as [[r' w'] t'] eqn:Eg.
        intros Hr. unfold result_of in Hr. simpl in Hr. subst r'.
        destruct (IH results w) as [Hne [a Hin]].
        { rewrite Eg. reflexivity. }
        split; [exact Hne|]. exists a. right. exact Hin.
      * intros Hr. unfold result_of in Hr. simpl in Hr.
        injection Hr as <-. split; [exact Ee|].
        exists args. left. reflexivity.
Qed.





End ExecutorFacts.


(** The run of the witness: the calls run in the order 2, 0, 4, 1 of their
    arguments and their futures are yielded in the order 0, 1, 2, 4; the
    [ValueError] of the item 1 is logged. *)
Example threadpool_execute_run :
  threadpool_execute Demo.worker [0; 1; 2; 4]%nat [2; 0; 3; 1]%nat
    [1; 3; 0; 2]%nat (Demo.world Demo.slides3 None None)
  = (Ok [10; 11; 4]%nat, Demo.world Demo.slides3 None None,
     [ELogError (Exception "ValueError")]).
Proof. reflexivity. Qed.


(** ** Resolving the listing of a category *)

Section CategoryFacts.
Context {W : Type} {H : Handlers W}.

(** The loop over the table raises only what a call of [get_file] on one of
    its entries raised. *)
Lemma resolve_files_raises (table : list RemoteEntry) (folder : Path)
    (_files : list FileDescriptor) (w : W) (e : exn) :
  result_of (resolve_files table folder _files w) = Raise e ->
  exists file w1 w2,
    In file table /\ get_file file folder w1 = (Raise e, w2).
Proof.
  revert _files w. induction table as [|file rest IH]; intros _files w; simpl.
  - discriminate.
  - unfold bind, call.
    destruct (get_file file folder w) as [[_file|e0] w1] eqn:Eg.
    + destruct (resolve_files rest folder _ w1) as [[r w2] t2] eqn:Er.
      intros Hr. unfold result_of in Hr. simpl in Hr. subst r.
      assert (Hr : result_of
                     (resolve_files rest folder
                        match _file with
                        | Some f => _files ++ [f]
                        | None => _files
                        end w1) = Raise e)
        by (rewrite Er; reflexivity).
      destruct (IH _ w1 Hr) as [f [wa [wb [Hin Hget]]]].
      exists f, wa, wb. split; [right; exact Hin | exact Hget].
    + intros Hr. unfold result_of in Hr. simpl in Hr. injection Hr as <-.
      exists file, w, w1. split; [left; reflexivity | exact Eg].
Qed.

(** C8, as the code has it: when the listing call or the resolution of one
    of its entries raises [e], what [search_files_in_category] does depends
    on [e] alone.  If [e] is an [Exception], it is logged and the function
    returns [None], which adds nothing to what the executor returns; if it
    is not ([SystemExit], [KeyboardInterrupt]), the function raises [e],
    and logs nothing.  In both cases nothing is called after the call that
    raised.  Whatever happens, the function raises only what is no
    [Exception]. *)
Theorem search_files_in_category_isolates (category catID : string)
    (course : Course) (full_path : Path) (w : W) :
  (forall e w1,
      parse_docs (year course) (semester_type course) (semester course)
        (ID course) catID w = (Raise e, w1) ->
      search_files_in_category category catID course full_path w
      = (if is_Exception e
         then (Ok None, w1, [EParseDocs course catID; ELogError e])
         else (Raise e, w1, [EParseDocs course catID])))
  /\ (forall e table w1 w2 t,
         parse_docs (year course) (semester_type course) (semester course)
           (ID course) catID w = (Ok table, w1) ->
         resolve_files table (path_join full_path category) [] w1
         = (Raise e, w2, t) ->
         search_files_in_category category catID course full_path w
         = (if is_Exception e
            then (Ok None, w2, EParseDocs course catID :: t ++ [ELogError e])
            else (Raise e, w2, EParseDocs course catID :: t)))
  /\ (forall e,
         is_Exception e = true ->
         (exists w1,
             parse_docs (year course) (semester_type course) (semester course)
               (ID course) catID w = (Raise e, w1))
         \/ (exists table w1 w2 t,
                parse_docs (year course) (semester_type course)
                  (semester course) (ID course) catID w = (Ok table, w1)
                /\ resolve_files table (path_join full_path category) [] w1
                   = (Raise e, w2, t)) ->
         result_of
           (search_files_in_category category catID course full_path w)
         = Ok None
         /\ In (ELogError e)
              (trace_of
                 (search_files_in_category category catID course full_path w))
         /\ contribution
              ((category, catID, course, full_path),
               result_of
                 (search_files_in_category category catID course full_path
                    w))
            = [])
  /\ (forall e,
         result_of
           (search_files_in_category category catID course full_path w)
         = Raise e ->
         is_Exception e = false).
Proof.
  assert (Hdocs : forall e w1,
             parse_docs (year course) (semester_type course) (semester course)
               (ID course) catID w = (Raise e, w1) ->
             search_files_in_category category catID course full_path w
             = (if is_Exception e
                then (Ok None, w1, [EParseDocs course catID; ELogError e])
                else (Raise e, w1, [EParseDocs course catID]))).
  { intros e w1 Hd.
    unfold search_files_in_category, try_except_Exception, search_files_body.
    unfold bind at 1. unfold call at 1. rewrite Hd.
    destruct (is_Exception e); reflexivity. }
  assert (Hfile : forall e table w1 w2 t,
             parse_docs (year course) (semester_type course) (semester course)
               (ID course) catID w = (Ok table, w1) ->
             resolve_files table (path_join full_path category) [] w1
             = (Raise e, w2, t) ->
             search_files_in_category category catID course full_path w
             = (if is_Exception e
                then (Ok None, w2,
                      EParseDocs course catID :: t ++ [ELogError e])
                else (Raise e, w2, EParseDocs course catID :: t))).
  { intros e table w1 w2 t Hd Hr.
    unfold search_files_in_category, try_except_Exception, search_files_body.
    unfold bind at 1. unfold call at 1. rewrite Hd.
    unfold bind at 1. rewrite Hr.
    destruct (is_Exception e); reflexivity. }
  split; [exact Hdocs|]. split; [exact Hfile|]. split.
  - intros e He Hraise.
    destruct Hraise as [[w1 Hd] | [table [w1 [w2 [t [Hd Hr]]]]]].
    + rewrite (Hdocs e w1 Hd), He. unfold result_of, trace_of. simpl.
      repeat split. right. left. reflexivity.
    + rewrite (Hfile e table w1 w2 t Hd Hr), He. unfold result_of, trace_of.
      simpl. repeat split. right. apply in_or_app. right. left. reflexivity.
  - intros e. unfold search_files_in_category, try_except_Exception.
    destruct (search_files_body category catID course full_path w)
      as [[[r|e0] w1] t1].
    + discriminate.
    + destruct (is_Exception e0) eqn:Ee.
      * unfold bind, log_error, ret. simpl. discriminate.
      * unfold result_of. simpl. intros Hr. injection Hr as <-. exact Ee.
Qed.
End CategoryFacts.

(** A listing with an entry that cannot be resolved: the entry resolved
    before it is dropped with the rest, the error is logged, and the
    function returns [None]. *)
Example search_files_in_category_broken_file :
  search_files_in_category "Slides" "c1" Demo.algebra ["CLIP"] Demo.broken_file
  = (Ok None, Demo.broken_file,
     [EParseDocs Demo.algebra "c1";
      EGetFile "a.pdf" ["CLIP"; "Slides"];
      EGetFile "broken.pdf" ["CLIP"; "Slides"];
      ELogError (Exception "OSError")]).
Proof. reflexivity. Qed.

(** C8, as stated, fails: a listing call that raises [SystemExit] makes
    [search_files_in_category] raise it. *)
Lemma search_files_in_category_lets_SystemExit_escape :
  result_of
    (search_files_in_category "Slides" "c1" Demo.algebra ["CLIP"]
       (Demo.broken_listing SystemExit))
  = Raise SystemExit.
Proof. reflexivity. Qed.

(** ** The diff stage of a course *)

Section CourseFacts.
Context {W : Type} {H : Handlers W}.

Lemma append_tasks_resolved (index : CatCount) (ids : string -> string)
    (course : Course) (full_path : Path) (_subcats : list SyncTask)
    (items : dict) (w : W) :
  resolves index ids (keys items) ->
  append_tasks index course full_path _subcats items w
  = (Ok (_subcats ++ tasks_of ids course full_path (Some items)), w, []).
Proof.
  revert _subcats. induction items as [|[category n] items IH];
    intros _subcats Hres; simpl.
  - rewrite app_nil_r. reflexivity.
  - unfold bind, lift. rewrite (Hres category) by (left; reflexivity).
    rewrite IH.
    + simpl. rewrite <- app_assoc. reflexivity.
    + intros k Hk. apply Hres. right. exact Hk.
Qed.

(** One loop of [search_cats_in_course]: nothing is appended for a diff
    that is [None] or empty. *)
Lemma append_diff_resolved (index : CatCount) (ids : string -> string)
    (course : Course) (full_path : Path) (_subcats : list SyncTask)
    (diff : option dict) (w : W) :
  resolves index ids (keys_of diff) ->
  match diff with
  | None | Some [] => ret _subcats
  | Some ((_ :: _) as d) => append_tasks index course full_path _subcats d
  end w
  = (Ok (_subcats ++ tasks_of ids course full_path diff), w, []).
Proof.
  intros Hres. destruct diff as [[|item d]|].
  - unfold ret. simpl. rewrite app_nil_r. reflexivity.
  - exact (append_tasks_resolved index ids course full_path _subcats
             (item :: d) w Hres).
  - unfold ret. simpl. rewrite app_nil_r. reflexivity.
Qed.

(** What [search_cats_in_course] returns and calls when its collaborators
    return: the tasks of the server diff, then those of the folder diff. *)
Lemma search_cats_in_course_run (path : Path) (course : Course) (w w' : W)
    (index : CatCount) (cachedict folderdict : option dict)
    (ids : string -> string) :
  course_run path course w index cachedict folderdict w' ->
  counts index <> [] ->
  resolves index ids
    (keys_of (dict_compare (Some (counts index)) cachedict)
     ++ keys_of (dict_compare cachedict folderdict)) ->
  search_cats_in_course path course w
  = (Ok (Some
           (tasks_of ids course (course_folder path course)
              (dict_compare (Some (counts index)) cachedict)
            ++ tasks_of ids course (course_folder path course)
                 (dict_compare cachedict folderdict))),
     w', course_trace path course index cachedict).
Proof.
  intros [w1 [w2 [w3 [w4 [Hidx [Hmk [Hcache [Hstash Hcount]]]]]]]] Hne Hres.
  assert (Hres1 : resolves index ids
                    (keys_of (dict_compare (Some (counts index)) cachedict)))
    by (intros k Hk; apply Hres; apply in_or_app; left; exact Hk).
  assert (Hres2 : resolves index ids
                    (keys_of (dict_compare cachedict folderdict)))
    by (intros k Hk; apply Hres; apply in_or_app; right; exact Hk).
  unfold search_cats_in_course, course_trace.
  unfold bind at 1. unfold call at 1. rewrite Hidx.
  destruct (counts index) as [|item rest] eqn:Ecounts; [congruence|].
  rewrite <- Ecounts in *. clear Ecounts item rest.
  unfold bind at 1. unfold call at 1. rewrite Hmk.
  unfold bind at 1. unfold call at 1. rewrite Hcache.
  set (cachediff := dict_compare (Some (counts index)) cachedict) in *.
  set (folderdiff := dict_compare cachedict folderdict) in *.
  unfold bind at 1.
  destruct cachediff as [[|item d]|] eqn:Ediff; simpl in Hstash.
  - subst w4. unfold ret at 1. unfold bind at 1. unfold call at 1.
    rewrite Hcount. unfold bind.
    rewrite (append_diff_resolved index ids course _ [] folderdiff w' Hres2).
    unfold ret. reflexivity.
  - unfold bind at 1. unfold call at 1. rewrite Hstash.
    rewrite (append_tasks_resolved index ids course _ [] (item :: d) w4 Hres1).
    unfold bind at 1. unfold call at 1. rewrite Hcount. unfold bind.
    rewrite (append_diff_resolved index ids course _ _ folderdiff w' Hres2).
    unfold ret. reflexivity.
  - subst w4. unfold ret at 1. unfold bind at 1. unfold call at 1.
    rewrite Hcount. unfold bind.
    rewrite (append_diff_resolved index ids course _ [] folderdiff w' Hres2).
    unfold ret. reflexivity.
Qed.
End CourseFacts.

Lemma categories_tasks_of (ids : string -> string) (course : Course)
    (full_path : Path) (diff : option dict) :
  map task_category (tasks_of ids course full_path diff) = keys_of diff.
Proof.
  destruct diff as [d|]; simpl; [|reflexivity].
  rewrite map_map. simpl. apply map_id.
Qed.


Lemma getitem_Some_keys (d : dict) (k : string) (v : Z) :
  getitem d k = Some v -> In k (keys d).
Proof.
  induction d as [|[k' v'] d IH]; simpl; [discriminate|].
  destruct (String.eqb k k') eqn:E.
  - apply String.eqb_eq in E. intros _. left. symmetry. exact E.
  - intros Hg. right. apply IH. exact Hg.
Qed.


Section CourseClaims.
Context {W : Type} {H : Handlers W}.

(** C3, as the code has it: for a course with a non-empty index,
    [search_cats_in_course] emits one task per category of the server diff
    and then one per category of the folder diff; the number of tasks for a
    category is the number of times it is a key of the two diffs, so a
    category of both diffs gets two tasks. *)
Theorem search_cats_in_course_emits_both_diffs (path : Path)
    (course : Course) (w w' : W) (index : CatCount)
    (cachedict folderdict : option dict) (ids : string -> string) :
  course_run path course w index cachedict folderdict w' ->
  counts index <> [] ->
  resolves index ids
    (keys_of (dict_compare (Some (counts index)) cachedict)
     ++ keys_of (dict_compare cachedict folderdict)) ->
  exists tasks,
    result_of (search_cats_in_course path course w) = Ok (Some tasks)
    /\ map task_category tasks
       = keys_of (dict_compare (Some (counts index)) cachedict)
         ++ keys_of (dict_compare cachedict folderdict)
    /\ forall category,
         tasks_for category tasks
         = (count_occ string_dec
              (keys_of (dict_compare (Some (counts index)) cachedict))
              category
            + count_occ string_dec
                (keys_of (dict_compare cachedict folderdict)) category)%nat.
Proof.
  intros Hrun Hne Hres.
  rewrite (search_cats_in_course_run path course w w' index cachedict
             folderdict ids Hrun Hne Hres).
  eexists. split; [reflexivity|].
  assert (Hcats :
            map task_category
              (tasks_of ids course (course_folder path course)
                 (dict_compare (Some (counts index)) cachedict)
               ++ tasks_of ids course (course_folder path course)
                    (dict_compare cachedict folderdict))
            = keys_of (dict_compare (Some (counts index)) cachedict)
              ++ keys_of (dict_compare cachedict folderdict)).
  { rewrite map_app, !categories_tasks_of. reflexivity. }
  split; [exact Hcats|].
  intros category. unfold tasks_for. rewrite Hcats.
  apply count_occ_app.
Qed.


(** C7: for a course whose index is empty, [search_cats_in_course] calls
    the index parser and nothing else: no folder is made, the world is as
    the parser left it, and the function returns [None] without raising,
    which adds no task to what the executor returns. *)
Theorem search_cats_in_course_skips_empty_index (path : Path)
    (course : Course) (w w1 : W) (index : CatCount) :
  parse_index (year course) (semester_type course) (semester course)
    (ID course) w = (Ok index, w1) ->
  counts index = [] ->
  search_cats_in_course path course w = (Ok None, w1, [EParseIndex course])
  /\ existsb is_mkdir_event
       (trace_of (search_cats_in_course path course w)) = false
  /\ contribution
       ((path, course), result_of (search_cats_in_course path course w))
     = [].
Proof.
  intros Hidx Hempty.
  assert (Hrun : search_cats_in_course path course w
                 = (Ok None, w1, [EParseIndex course])).
  { unfold search_cats_in_course, bind, call. rewrite Hidx, Hempty.
    reflexivity. }
  rewrite Hrun. repeat split.
Qed.

(** C10: the folder diff of [search_cats_in_course] is taken against the
    cache record [cachedict] that [parse_cache] returned, also when the
    server diff is not empty and [stash_cache] has been called with the
    live index before the folder is counted: the tasks after those of the
    server diff are the tasks of [dict_compare cachedict folderdict]. *)
Theorem search_cats_in_course_cross_checks_loaded_cache (path : Path)
    (course : Course) (w w' : W) (index : CatCount)
    (cachedict folderdict : option dict) (ids : string -> string) :
  course_run path course w index cachedict folderdict w' ->
  counts index <> [] ->
  resolves index ids
    (keys_of (dict_compare (Some (counts index)) cachedict)
     ++ keys_of (dict_compare cachedict folderdict)) ->
  exists server_tasks,
    result_of (search_cats_in_course path course w)
    = Ok (Some
            (server_tasks
             ++ tasks_of ids course (course_folder path course)
                  (dict_compare cachedict folderdict)))
    /\ map task_category server_tasks
       = keys_of (dict_compare (Some (counts index)) cachedict)
    /\ (falsy (dict_compare (Some (counts index)) cachedict) = false ->
        trace_of (search_cats_in_course path course w)
        = [EParseIndex course; EMkdir (course_folder path course);
           EParseCache (course_folder path course);
           EStashCache index (course_folder path course);
           ECountFiles (course_folder path course)]).
Proof.
  intros Hrun Hne Hres.
  rewrite (search_cats_in_course_run path course w w' index cachedict
             folderdict ids Hrun Hne Hres).
  eexists. split; [reflexivity|]. split.
  - apply categories_tasks_of.
  - intros Hdiff. unfold trace_of, course_trace. simpl. rewrite Hdiff.
    reflexivity.
Qed.
End CourseClaims.

(** *** Runs of the diff stage in the concrete world *)

(** The server lists three slides, the cache record says two and the folder
    holds one. *)
Lemma demo_run_behind_twice :
  course_run Demo.clip Demo.algebra
    (Demo.world Demo.slides3 (Some [("Slides", 2%Z)]) (Some [("Slides", 1%Z)]))
    Demo.slides3 (Some [("Slides", 2%Z)]) (Some [("Slides", 1%Z)])
    (Demo.mkWorld Demo.slides3 (Some [("Slides", 3%Z)])
       (Some [("Slides", 1%Z)]) [Demo.algebra_folder] ["a.pdf"; "b.pdf"] None
       (Some O)).
Proof.
  unfold course_run. simpl. eexists _, _, _, _. repeat split.
Qed.


(** The server lists three slides, the cache record says one and the folder
    holds one. *)
Lemma demo_run_server_ahead :
  course_run Demo.clip Demo.algebra
    (Demo.world Demo.slides3 (Some [("Slides", 1%Z)]) (Some [("Slides", 1%Z)]))
    Demo.slides3 (Some [("Slides", 1%Z)]) (Some [("Slides", 1%Z)])
    (Demo.mkWorld Demo.slides3 (Some [("Slides", 3%Z)])
       (Some [("Slides", 1%Z)]) [Demo.algebra_folder] ["a.pdf"; "b.pdf"] None
       (Some O)).
Proof.
  unfold course_run. simpl. eexists _, _, _, _. repeat split.
Qed.

Lemma demo_resolves_slides (ks : list string) :
  forallb (fun k => String.eqb k "Slides") ks = true ->
  resolves Demo.slides3 Demo.ids ks.
Proof.
  intros Hall k Hk. rewrite forallb_forall in Hall.
  specialize (Hall k Hk). apply String.eqb_eq in Hall. subst k. reflexivity.
Qed.

Lemma slides3_not_empty : counts Demo.slides3 <> [].
Proof. discriminate. Qed.

Lemma demo_resolves_both (ks : list string) :
  forallb (fun k => String.eqb k "Slides" || String.eqb k "Exercises") ks
  = true ->
  resolves Demo.slides_exercises Demo.ids ks.
Proof.
  intros Hall k Hk. rewrite forallb_forall in Hall.
  specialize (Hall k Hk). apply orb_prop in Hall.
  destruct Hall as [Hs | He]; apply String.eqb_eq in Hs || apply String.eqb_eq in He;
    subst k; reflexivity.
Qed.

Lemma slides_exercises_not_empty : counts Demo.slides_exercises <> [].
Proof. discriminate. Qed.


Lemma search_cats_in_course_emits_both_diffs_witness :
  exists tasks,
    result_of
      (search_cats_in_course Demo.clip Demo.algebra
         (Demo.world Demo.slides3 (Some [("Slides", 2%Z)])
            (Some [("Slides", 1%Z)])))
    = Ok (Some tasks)
    /\ map task_category tasks = ["Slides"] ++ ["Slides"]
    /\ forall category,
         tasks_for category tasks
         = (count_occ string_dec ["Slides"] category
            + count_occ string_dec ["Slides"] category)%nat.
Proof.
  exact (search_cats_in_course_emits_both_diffs Demo.clip Demo.algebra _ _
           Demo.slides3 (Some [("Slides", 2%Z)]) (Some [("Slides", 1%Z)])
           Demo.ids demo_run_behind_twice slides3_not_empty
           (demo_resolves_slides ["Slides"; "Slides"] eq_refl)).
Defined.

(** C3, as stated, fails: with three slides on the server, two in the cache
    record and one in the folder, "Slides" is in the server diff and in the
    folder diff, and [search_cats_in_course] emits its task twice. *)
Lemma search_cats_in_course_emits_category_twice :
  dict_compare (Some (counts Demo.slides3)) (Some [("Slides", 2%Z)])
  = Some [("Slides", 3%Z)]
  /\ dict_compare (Some [("Slides", 2%Z)]) (Some [("Slides", 1%Z)])
     = Some [("Slides", 2%Z)]
  /\ result_of
       (search_cats_in_course Demo.clip Demo.algebra
          (Demo.world Demo.slides3 (Some [("Slides", 2%Z)])
             (Some [("Slides", 1%Z)])))
     = Ok (Some [Demo.slides_task; Demo.slides_task])
  /\ tasks_for "Slides" [Demo.slides_task; Demo.slides_task] = 2%nat.
Proof. repeat split. Qed.



Lemma search_cats_in_course_skips_empty_index_witness :
  search_cats_in_course Demo.clip Demo.algebra
    (Demo.world Demo.no_documents None (Some []))
  = (Ok None, Demo.world Demo.no_documents None (Some []),
     [EParseIndex Demo.algebra])
  /\ existsb is_mkdir_event
       (trace_of
          (search_cats_in_course Demo.clip Demo.algebra
             (Demo.world Demo.no_documents None (Some []))))
     = false
  /\ contribution
       ((Demo.clip, Demo.algebra),
        result_of
          (search_cats_in_course Demo.clip Demo.algebra
             (Demo.world Demo.no_documents None (Some []))))
     = [].
Proof.
  exact (search_cats_in_course_skips_empty_index Demo.clip Demo.algebra
           (Demo.world Demo.no_documents None (Some [])) _ Demo.no_documents
           eq_refl eq_refl).
Defined.

Lemma search_cats_in_course_cross_checks_loaded_cache_witness :
  exists server_tasks,
    result_of
      (search_cats_in_course Demo.clip Demo.algebra
         (Demo.world Demo.slides3 (Some [("Slides", 1%Z)])
            (Some [("Slides", 1%Z)])))
    = Ok (Some
            (server_tasks
             ++ tasks_of Demo.ids Demo.algebra
                  (course_folder Demo.clip Demo.algebra)
                  (dict_compare (Some [("Slides", 1%Z)])
                     (Some [("Slides", 1%Z)]))))
    /\ map task_category server_tasks
       = keys_of (dict_compare (Some (counts Demo.slides3))
                    (Some [("Slides", 1%Z)]))
    /\ (falsy (dict_compare (Some (counts Demo.slides3))
                 (Some [("Slides", 1%Z)])) = false ->
        trace_of
          (search_cats_in_course Demo.clip Demo.algebra
             (Demo.world Demo.slides3 (Some [("Slides", 1%Z)])
                (Some [("Slides", 1%Z)])))
        = [EParseIndex Demo.algebra;
           EMkdir (course_folder Demo.clip Demo.algebra);
           EParseCache (course_folder Demo.clip Demo.algebra);
           EStashCache Demo.slides3 (course_folder Demo.clip Demo.algebra);
           ECountFiles (course_folder Demo.clip Demo.algebra)]).
Proof.
  exact (search_cats_in_course_cross_checks_loaded_cache Demo.clip
           Demo.algebra _ _ Demo.slides3 (Some [("Slides", 1%Z)])
           (Some [("Slides", 1%Z)]) Demo.ids demo_run_server_ahead
           slides3_not_empty (demo_resolves_slides ["Slides"] eq_refl)).
Defined.

(** The run of that witness: the record on disk is overwritten with the live
    index before the folder is counted, and against it "Slides" would be in
    the folder diff; against the record that was loaded it is not, and the
    run emits the one task of the server diff. *)
Example cross_check_ignores_staged_index :
  let w := Demo.world Demo.slides3 (Some [("Slides", 1%Z)])
             (Some [("Slides", 1%Z)]) in
  let run := search_cats_in_course Demo.clip Demo.algebra w in
  result_of run = Ok (Some [Demo.slides_task])
  /\ Demo.persisted (world_of run) = Some [("Slides", 3%Z)]
  /\ dict_compare (Demo.persisted (world_of run)) (Demo.folder (world_of run))
     = Some [("Slides", 3%Z)]
  /\ dict_compare (Demo.persisted w) (Demo.folder w) = Some [].
Proof. repeat split. Qed.

(** ** The order of the calls of a run *)

Section Emits.
Context {W : Type}.
Variable P : Event -> Prop.

Lemma emits_ret {A : Type} (a : A) : emits P (@ret W A a).
Proof. intros w. constructor. Qed.

Lemma emits_raise {A : Type} (e : exn) : emits P (@raise W A e).
Proof. intros w. constructor. Qed.

Lemma emits_lift {A : Type} (r : result A) : emits P (@lift W A r).
Proof. intros w. constructor. Qed.

Lemma emits_call {A : Type} (ev : Event) (h : W -> result A * W) :
  P ev -> emits P (call ev h).
Proof.
  intros Hev w. unfold call, trace_of. destruct (h w) as [r w1]. simpl.
  constructor; [exact Hev | constructor].
Qed.

Lemma emits_log_error (e : exn) :
  P (ELogError e) -> emits P (@log_error W e).
Proof. intros Hev w. constructor; [exact Hev | constructor]. Qed.

Lemma emits_bind {A B : Type} (m : M W A) (f : A -> M W B) :
  emits P m -> (forall a, emits P (f a)) -> emits P (bind m f).
Proof.
  intros Hm Hf w. unfold bind, trace_of. specialize (Hm w).
  destruct (m w) as [[[a|e] w1] t1]; simpl in *; [|exact Hm].
  specialize (Hf a w1). destruct (f a w1) as [[r w2] t2]. simpl in *.
  apply Forall_app. split; assumption.
Qed.

Lemma emits_try {A : Type} (m : M W A) (handler : exn -> M W A) :
  emits P m -> (forall e, emits P (handler e)) ->
  emits P (try_except_Exception m handler).
Proof.
  intros Hm Hh w. unfold try_except_Exception, trace_of. specialize (Hm w).
  destruct (m w) as [[[a|e] w1] t1]; simpl in *; [exact Hm|].
  destruct (is_Exception e); simpl; [|exact Hm].
  specialize (Hh e w1). destruct (handler e w1) as [[r w2] t2]. simpl in *.
  apply Forall_app. split; assumption.
Qed.

Lemma emits_attempt {A : Type} (m : M W A) :
  emits P m -> emits P (attempt m).
Proof.
  intros Hm w. unfold attempt, trace_of. specialize (Hm w).
  destruct (m w) as [[r w1] t1]. exact Hm.
Qed.

Lemma emits_run_pool {A R : Type}
    (worker_function : A -> M W (option (list R))) (submitted : list A) :
  (forall args, emits P (worker_function args)) ->
  emits P (run_pool worker_function submitted).
Proof.
  intros Hw. induction submitted as [|args rest IH]; simpl.
  - apply emits_ret.
  - apply emits_bind; [apply emits_attempt, Hw|]. intros outcome.
    apply emits_bind; [exact IH|]. intros done. apply emits_ret.
Qed.

Lemma emits_gather {A R : Type} (done : list (@Future A R))
    (results : list R) :
  (forall e, P (ELogError e)) -> emits P (gather (W:=W) done results).
Proof.
  intros Hlog. revert results.
  induction done as [|[args outcome] done IH]; intros results; simpl.
  - apply emits_ret.
  - apply emits_bind; [|intros r; apply IH].
    apply emits_try.
    + apply emits_bind; [apply emits_lift|].
      intros [r|]; apply emits_ret.
    + intros e. apply emits_bind; [apply emits_log_error, Hlog|].
      intros _. apply emits_ret.
Qed.

Lemma emits_threadpool_execute {A R : Type}
    (worker_function : A -> M W (option (list R))) (items : list A)
    (order yielded : list nat) :
  (forall args, emits P (worker_function args)) ->
  (forall e, P (ELogError e)) ->
  emits P (threadpool_execute worker_function items order yielded).
Proof.
  intros Hw Hlog. unfold threadpool_execute.
  apply emits_bind; [apply emits_run_pool, Hw|].
  intros done. apply emits_gather, Hlog.
Qed.
End Emits.

(** The calls of [bind m f] are those of [m], then those of [f]. *)
Lemma bind_trace_split {W A B : Type} (P Q : Event -> Prop) (m : M W A)
    (f : A -> M W B) (w : W) :
  Forall P (trace_of (m w)) ->
  (forall a, emits Q (f a)) ->
  exists t1 t2,
    trace_of (bind m f w) = t1 ++ t2 /\ Forall P t1 /\ Forall Q t2.
Proof.
  intros Hm Hf. unfold bind, trace_of in *.
  destruct (m w) as [[[a|e] w1] t1]; simpl in *.
  - specialize (Hf a w1). unfold trace_of in Hf.
    destruct (f a w1) as [[r w2] t2]. simpl in *.
    exists t1, t2. repeat split; assumption.
  - exists t1, []. rewrite app_nil_r. repeat split; [assumption | constructor].
Qed.

(** In a trace made of calls that fetch nothing followed by calls that stage
    nothing, nothing is fetched before a staging call. *)
Lemma nothing_fetched_before_stash (t1 t2 before after : list Event)
    (ev : Event) :
  Forall not_fetch t1 -> Forall not_stash t2 ->
  t1 ++ t2 = before ++ ev :: after ->
  is_stash_event ev = true ->
  Forall not_fetch before.
Proof.
  intros H1 H2 Heq Hev.
  apply app_eq_app in Heq. destruct Heq as [l [[Ht1 Hrest] | [Hb Ht2]]].
  - destruct l as [|x l].
    + rewrite app_nil_r in Ht1. subst before. simpl in Hrest. subst t2.
      inversion H2 as [|? ? Hns _]; subst. unfold not_stash in Hns. congruence.
    + simpl in Hrest. injection Hrest as <- Hafter. subst t1.
      apply Forall_app in H1. destruct H1 as [H1 _]. exact H1.
  - subst t2. apply Forall_app in H2. destruct H2 as [_ H2].
    inversion H2 as [|? ? Hns _]; subst. unfold not_stash in Hns. congruence.
Qed.

Section StageOrder.
Context {W : Type} {H : Handlers W}.

Lemma emits_append_tasks (P : Event -> Prop) (index : CatCount)
    (course : Course) (full_path : Path) (_subcats : list SyncTask)
    (items : dict) :
  emits P (append_tasks index course full_path _subcats items).
Proof.
  revert _subcats. induction items as [|[category n] items IH];
    intros _subcats; simpl.
  - apply emits_ret.
  - apply emits_bind; [apply emits_lift|]. intros catID. apply IH.
Qed.

Lemma emits_append_diff (P : Event -> Prop) (index : CatCount)
    (course : Course) (full_path : Path) (_subcats : list SyncTask)
    (diff : option dict) :
  emits P
    match diff with
    | None | Some [] => ret _subcats
    | Some ((_ :: _) as d) => append_tasks index course full_path _subcats d
    end.
Proof.
  destruct diff as [[|item d]|];
    [apply emits_ret | apply emits_append_tasks | apply emits_ret].
Qed.

(** The diff stage resolves no listing and downloads nothing. *)
Lemma search_cats_in_course_fetches_nothing (path : Path) (course : Course) :
  emits not_fetch (search_cats_in_course path course).
Proof.
  unfold search_cats_in_course.
  apply emits_bind; [apply emits_call; reflexivity|]. intros index.
  destruct (counts index) as [|item rest]; [apply emits_ret|].
  apply emits_bind; [apply emits_call; reflexivity|]. intros _.
  apply emits_bind; [apply emits_call; reflexivity|]. intros cachedict.
  apply emits_bind.
  - destruct (dict_compare _ cachedict) as [[|i d]|];
      [apply emits_ret | | apply emits_ret].
    apply emits_bind; [apply emits_call; reflexivity|]. intros _.
    apply emits_append_tasks.
  - intros _subcats.
    apply emits_bind; [apply emits_call; reflexivity|]. intros folderdict.
    apply emits_bind; [apply emits_append_diff|]. intros tasks.
    apply emits_ret.
Qed.

Lemma emits_resolve_files (P : Event -> Prop) (table : list RemoteEntry)
    (folder : Path) (_files : list FileDescriptor) :
  (forall file, P (EGetFile file folder)) ->
  emits P (resolve_files table folder _files).
Proof.
  intros Hget. revert _files. induction table as [|file rest IH];
    intros _files; simpl.
  - apply emits_ret.
  - apply emits_bind; [apply emits_call, Hget|]. intros _file. apply IH.
Qed.

(** Resolving a listing stages nothing. *)
Lemma search_files_in_category_stages_nothing (category catID : string)
    (course : Course) (full_path : Path) :
  emits not_stash (search_files_in_category category catID course full_path).
Proof.
  unfold search_files_in_category, search_files_body.
  apply emits_try.
  - apply emits_bind; [apply emits_call; reflexivity|]. intros table.
    apply emits_bind; [|intros _files; apply emits_ret].
    apply emits_resolve_files. reflexivity.
  - intros e. apply emits_bind; [apply emits_log_error; reflexivity|].
    intros _. apply emits_ret.
Qed.

(** The trace of the stages: the calls of the diff stage, which fetch
    nothing, then calls that stage nothing. *)
Lemma sync_stages_trace (sched yielded : nat -> nat -> list nat)
    (path : Path) (courses : list Course) (w : W) :
  exists t1 t2,
    trace_of (sync_stages sched yielded path courses w) = t1 ++ t2
    /\ Forall not_fetch t1 /\ Forall not_stash t2.
Proof.
  unfold sync_stages. apply bind_trace_split.
  - apply emits_threadpool_execute; [|reflexivity].
    intros [p course]. apply search_cats_in_course_fetches_nothing.
  - intros subcats.
    apply emits_bind.
    { apply emits_threadpool_execute; [|reflexivity].
      intros [[[category catID] course] full_path].
      apply search_files_in_category_stages_nothing. }
    intros files. apply emits_bind.
    { destruct files as [|file files]; [apply emits_ret|].
      apply emits_threadpool_execute; [|reflexivity].
      intros f. apply emits_call. reflexivity. }
    intros _. apply emits_bind; [apply emits_call; reflexivity|].
    intros _. apply emits_ret.
Qed.

(** The calls of the diff stage once the cache record is loaded: the
    staging call when the server diff is not empty, then at most the count
    of the folder. *)
Lemma search_cats_in_course_trace_shape (path : Path) (course : Course)
    (w w1 w2 w3 : W) (index : CatCount) (cachedict : option dict) :
  parse_index (year course) (semester_type course) (semester course)
    (ID course) w = (Ok index, w1) ->
  counts index <> [] ->
  mkdir (course_folder path course) w1 = (Ok tt, w2) ->
  parse_cache (course_folder path course) index (name course) w2
  = (Ok cachedict, w3) ->
  exists tail,
    trace_of (search_cats_in_course path course w)
    = [EParseIndex course; EMkdir (course_folder path course);
       EParseCache (course_folder path course)]
      ++ (if falsy (dict_compare (Some (counts index)) cachedict)
          then []
          else [EStashCache index (course_folder path course)])
      ++ tail
    /\ Forall (fun ev => ev = ECountFiles (course_folder path course)) tail.
Proof.
  intros Hidx Hne Hmk Hcache.
  set (fp := course_folder path course) in *.
  set (Q := fun ev => ev = ECountFiles fp).
  assert (HK : forall _subcats : list SyncTask,
             emits Q
               (folderdict <- call (ECountFiles fp)
                                (count_files_in_subfolders fp) ;;
                _subcats' <-
                  match dict_compare cachedict folderdict with
                  | None | Some [] => ret _subcats
                  | Some ((_ :: _) as diff) =>
                      append_tasks index course fp _subcats diff
                  end ;;
                ret (Some _subcats'))).
  { intros _subcats.
    apply emits_bind; [apply emits_call; reflexivity|]. intros folderdict.
    apply emits_bind; [apply emits_append_diff|]. intros tasks.
    apply emits_ret. }
  unfold search_cats_in_course. fold fp.
  unfold bind at 1. unfold call at 1. rewrite Hidx.
  destruct (counts index) as [|item rest] eqn:Ecounts; [congruence|].
  rewrite <- Ecounts in *. clear Ecounts item rest.
  unfold bind at 1. unfold call at 1. rewrite Hmk.
  unfold bind at 1. unfold call at 1. rewrite Hcache.
  destruct (dict_compare (Some (counts index)) cachedict) as [[|item d]|];
    simpl falsy; cbv iota.
  - unfold bind at 1. unfold ret at 1.
    match goal with
    | |- context [match ?k w3 with _ => _ end] =>
        pose proof (HK [] w3) as Hk; destruct (k w3) as [[r w4] t4]
    end.
    exists t4. split; [reflexivity | exact Hk].
  - unfold bind at 1. unfold bind at 1. unfold call at 1.
    destruct (stash_cache index fp w3) as [[[]|e] w4].
    + pose proof (emits_append_tasks Q index course fp [] (item :: d) w4)
        as Ha.
      destruct (append_tasks index course fp [] (item :: d) w4)
        as [[[tasks|e] w5] t5]; unfold trace_of in Ha; simpl in Ha.
      * match goal with
        | |- context [match ?k w5 with _ => _ end] =>
            pose proof (HK tasks w5) as Hk; destruct (k w5) as [[r w6] t6]
        end.
        exists (t5 ++ t6). split; [reflexivity|].
        apply Forall_app. split; assumption.
      * exists t5. split; [reflexivity | exact Ha].
    + exists []. split; [reflexivity | constructor].
  - unfold bind at 1. unfold ret at 1.
    match goal with
    | |- context [match ?k w3 with _ => _ end] =>
        pose proof (HK [] w3) as Hk; destruct (k w3) as [[r w4] t4]
    end.
    exists t4. split; [reflexivity | exact Hk].
Qed.
End StageOrder.

Section StageClaims.
Context {W : Type} {H : Handlers W}.

(** C5: in the diff stage of a course, once the index (not empty) and the
    cache record are loaded, [stash_cache] is called, with the whole live
    index and the folder of the course, if and only if the server diff is
    not empty; the diff stage itself resolves no listing and downloads
    nothing; and in a run of the stages, no listing is resolved and nothing
    is downloaded before a staging call.  The call is made on the world: the
    folder is counted in the world [stash_cache] left (in the world
    [parse_cache] left when the diff is empty), the run ends in the world
    the count left, and a staging call that raises ends the run in the
    world it left. *)
Theorem stash_cache_iff_server_diff_before_fetch (path : Path)
    (course : Course) (w w1 w2 w3 : W) (index : CatCount)
    (cachedict : option dict) :
  parse_index (year course) (semester_type course) (semester course)
    (ID course) w = (Ok index, w1) ->
  counts index <> [] ->
  mkdir (course_folder path course) w1 = (Ok tt, w2) ->
  parse_cache (course_folder path course) index (name course) w2
  = (Ok cachedict, w3) ->
  let t := trace_of (search_cats_in_course path course w) in
  (In (EStashCache index (course_folder path course)) t <->
   falsy (dict_compare (Some (counts index)) cachedict) = false)
  /\ (forall ev,
        In ev t -> is_stash_event ev = true ->
        ev = EStashCache index (course_folder path course))
  /\ Forall not_fetch t
  /\ (forall sched yielded courses w0 before ev after,
        trace_of (sync_stages sched yielded path courses w0)
        = before ++ ev :: after ->
        is_stash_event ev = true ->
        Forall not_fetch before)
  /\ (forall w4 w' folderdict ids,
        (if falsy (dict_compare (Some (counts index)) cachedict)
         then w4 = w3
         else stash_cache index (course_folder path course) w3 = (Ok tt, w4)) ->
        count_files_in_subfolders (course_folder path course) w4
        = (Ok folderdict, w') ->
        resolves index ids
          (keys_of (dict_compare (Some (counts index)) cachedict)
           ++ keys_of (dict_compare cachedict folderdict)) ->
        search_cats_in_course path course w
        = (Ok (Some
                 (tasks_of ids course (course_folder path course)
                    (dict_compare (Some (counts index)) cachedict)
                  ++ tasks_of ids course (course_folder path course)
                       (dict_compare cachedict folderdict))),
           w', course_trace path course index cachedict))
  /\ (forall e w4,
        falsy (dict_compare (Some (counts index)) cachedict) = false ->
        stash_cache index (course_folder path course) w3 = (Raise e, w4) ->
        search_cats_in_course path course w
        = (Raise e, w4,
           [EParseIndex course; EMkdir (course_folder path course);
            EParseCache (course_folder path course);
            EStashCache index (course_folder path course)])).
Proof.
  intros Hidx Hne Hmk Hcache t.
  destruct (search_cats_in_course_trace_shape path course w w1 w2 w3 index
              cachedict Hidx Hne Hmk Hcache) as [tail [Ht Htail]].
  fold t in Ht. rewrite Forall_forall in Htail.
  split; [split|]; [| |split; [|split; [|split; [|split]]]].
  - intros Hin. rewrite Ht in Hin.
    destruct (falsy (dict_compare (Some (counts index)) cachedict));
      [|reflexivity].
    simpl in Hin.
    destruct Hin as [Heq | [Heq | [Heq | Hin]]]; try discriminate.
    apply Htail in Hin. discriminate.
  - intros Hdiff. rewrite Ht, Hdiff. simpl. do 3 right. left. reflexivity.
  - intros ev Hin Hstash. rewrite Ht in Hin.
    destruct (falsy (dict_compare (Some (counts index)) cachedict));
      simpl in Hin.
    + destruct Hin as [Heq | [Heq | [Heq | Hin]]];
        try (subst ev; discriminate).
      apply Htail in Hin. subst ev. discriminate.
    + destruct Hin as [Heq | [Heq | [Heq | [Heq | Hin]]]];
        try (subst ev; discriminate).
      * symmetry. exact Heq.
      * apply Htail in Hin. subst ev. discriminate.
  - apply search_cats_in_course_fetches_nothing.
  - intros sched yielded courses w0 before ev after Heq Hstash.
    destruct (sync_stages_trace sched yielded path courses w0)
      as [t1 [t2 [Hsplit [H1 H2]]]].
    rewrite Hsplit in Heq.
    exact (nothing_fetched_before_stash t1 t2 before after ev H1 H2 Heq
             Hstash).
  - intros w4 w' folderdict ids Hstash Hcount Hres.
    apply (search_cats_in_course_run path course w w' index cachedict
             folderdict ids); [|exact Hne | exact Hres].
    exists w1, w2, w3, w4. repeat split; assumption.
  - intros e w4 Hdiff Hstash.
    unfold search_cats_in_course.
    unfold bind at 1. unfold call at 1. rewrite Hidx.
    destruct (counts index) as [|item rest] eqn:Ecounts; [congruence|].
    rewrite <- Ecounts in *. clear Ecounts item rest.
    unfold bind at 1. unfold call at 1. rewrite Hmk.
    unfold bind at 1. unfold call at 1. rewrite Hcache.
    destruct (dict_compare (Some (counts index)) cachedict) as [[|item d]|];
      try discriminate.
    unfold bind at 1. unfold bind at 1. unfold call at 1. rewrite Hstash.
    reflexivity.
Qed.
End StageClaims.

Lemma stash_cache_iff_server_diff_before_fetch_witness :
  (In (EStashCache Demo.slides_exercises
         (course_folder Demo.clip Demo.algebra))
      (trace_of
         (search_cats_in_course Demo.clip Demo.algebra
            (Demo.world Demo.slides_exercises (Some [("Slides", 3%Z)])
               (Some [("Slides", 3%Z)])))) <->
   falsy (dict_compare (Some (counts Demo.slides_exercises))
            (Some [("Slides", 3%Z)])) = false)
  /\ Forall not_fetch
       (trace_of
          (search_cats_in_course Demo.clip Demo.algebra
             (Demo.world Demo.slides_exercises (Some [("Slides", 3%Z)])
                (Some [("Slides", 3%Z)]))))
  /\ search_cats_in_course Demo.clip Demo.algebra
       (Demo.world Demo.slides_exercises (Some [("Slides", 3%Z)])
          (Some [("Slides", 3%Z)]))
     = (Ok (Some [("Exercises", "c2", Demo.algebra,
                   course_folder Demo.clip Demo.algebra)]),
        Demo.mkWorld Demo.slides_exercises
          (Some [("Slides", 3%Z); ("Exercises", 1%Z)])
          (Some [("Slides", 3%Z)]) [Demo.algebra_folder] ["a.pdf"; "b.pdf"]
          None (Some O),
        [EParseIndex Demo.algebra;
         EMkdir (course_folder Demo.clip Demo.algebra);
         EParseCache (course_folder Demo.clip Demo.algebra);
         EStashCache Demo.slides_exercises
           (course_folder Demo.clip Demo.algebra);
         ECountFiles (course_folder Demo.clip Demo.algebra)]).
Proof.
  destruct (stash_cache_iff_server_diff_before_fetch (H:=Demo.handlers)
              Demo.clip Demo.algebra
              (Demo.world Demo.slides_exercises (Some [("Slides", 3%Z)])
                 (Some [("Slides", 3%Z)]))
              (Demo.world Demo.slides_exercises (Some [("Slides", 3%Z)])
                 (Some [("Slides", 3%Z)]))
              (Demo.add_dir Demo.algebra_folder
                 (Demo.world Demo.slides_exercises (Some [("Slides", 3%Z)])
                    (Some [("Slides", 3%Z)])))
              (Demo.add_dir Demo.algebra_folder
                 (Demo.world Demo.slides_exercises (Some [("Slides", 3%Z)])
                    (Some [("Slides", 3%Z)])))
              Demo.slides_exercises
              (Some [("Slides", 3%Z)]) eq_refl slides_exercises_not_empty
              eq_refl eq_refl)
    as [Hiff [_ [Hfetch [_ [Hworld _]]]]].
  split; [exact Hiff|]. split; [exact Hfetch|].
  exact (Hworld _ _ (Some [("Slides", 3%Z)]) Demo.ids eq_refl eq_refl
           (demo_resolves_both ["Exercises"] eq_refl)).
Defined.

(** A run of the stages on the second scenario of the specification: the
    cache record counts the three slides, the server also lists an exercise.
    Only "Exercises" is scheduled; the record is staged before its listing is
    resolved and its files downloaded. *)
Example sync_stages_run :
  trace_of
    (sync_stages (fun _ n => seq 0 n) (fun _ n => rev (seq 0 n))
           Demo.clip [Demo.algebra]
       (Demo.world Demo.slides_exercises (Some [("Slides", 3%Z)])
          (Some [("Slides", 3%Z)])))
  = [EParseIndex Demo.algebra;
     EMkdir Demo.algebra_folder;
     EParseCache Demo.algebra_folder;
     EStashCache Demo.slides_exercises Demo.algebra_folder;
     ECountFiles Demo.algebra_folder;
     EParseDocs Demo.algebra "c2";
     EGetFile "a.pdf" (path_join Demo.algebra_folder "Exercises");
     EGetFile "b.pdf" (path_join Demo.algebra_folder "Exercises");
     EDownload
       (path_join (path_join Demo.algebra_folder "Exercises") "a.pdf",
        "a.pdf", 0%Z, 0%Z);
     EDownload
       (path_join (path_join Demo.algebra_folder "Exercises") "b.pdf",
        "b.pdf", 0%Z, 0%Z);
     ECommitCache].
Proof. reflexivity. Qed.

(** ** The login loop *)

Section LoginFacts.
Context {W : Type} {H : Handlers W}.

(** After [k] rejected attempts the loop is still running: it has neither
    returned nor raised. *)
Lemma login_loop_still_running (username : option string)
    (force_relogin : bool) (k : nat) (w w' : W) (t : list Event) :
  rejected username force_relogin k w w' t ->
  login_loop k username force_relogin w = None.
Proof.
  intros Hrej. induction Hrej as [w | k w w1 w2 t1 t2 Hatt Hrej IH].
  - reflexivity.
  - simpl. rewrite Hatt. simpl. rewrite IH. reflexivity.
Qed.

(** C9, as the code has it: the loop repeats the attempt after every
    [LoginError], whatever their number [k], and gives up after none; the
    attempt that succeeds ends it, with the session of that attempt. *)
Theorem login_loop_retries_until_success (username : option string)
    (force_relogin : bool) (k : nat) (w w1 w2 : W) (t1 t2 : list Event)
    (user : string) :
  rejected username force_relogin k w w1 t1 ->
  login_attempt username force_relogin w1 = (Ok user, w2, t2) ->
  login_loop k username force_relogin w = None
  /\ forall fuel,
       (k < fuel)%nat ->
       login_loop fuel username force_relogin w
       = Some (Ok user, w2, t1 ++ t2).
Proof.
  intros Hrej Hok. split.
  - exact (login_loop_still_running username force_relogin k w w1 t1 Hrej).
  - induction Hrej as [w | k w wa wb ta tb Hatt Hrej IH]; intros fuel Hlt.
    + destruct fuel as [|fuel]; [lia|]. simpl. rewrite Hok. reflexivity.
    + destruct fuel as [|fuel]; [lia|]. simpl. rewrite Hatt. simpl.
      rewrite (IH Hok fuel) by lia. rewrite app_assoc. reflexivity.
Qed.

(** An exception of an attempt that is no [LoginError] ends the loop: it
    is raised to the caller. *)
Lemma login_loop_raises_other (username : option string)
    (force_relogin : bool) (w w1 : W) (t1 : list Event) (e : exn)
    (fuel : nat) :
  login_attempt username force_relogin w = (Raise e, w1, t1) ->
  is_LoginError e = false ->
  login_loop (S fuel) username force_relogin w = Some (Raise e, w1, t1).
Proof. intros Hatt He. simpl. rewrite Hatt, He. reflexivity. Qed.
End LoginFacts.

Lemma demo_rejected_twice :
  rejected None false 2 (Demo.login_world (Some 2%nat))
    (Demo.login_world (Some 0%nat))
    ([ELogin (Some "student") (Some "secret")]
     ++ [ELogin (Some "student") (Some "secret")] ++ []).
Proof.
  apply (rejected_S None false 1 _ (Demo.login_world (Some 1%nat)));
    [reflexivity|].
  apply (rejected_S None false 0 _ (Demo.login_world (Some 0%nat)));
    [reflexivity|].
  apply rejected_O.
Qed.

Lemma login_loop_retries_until_success_witness :
  login_loop 2 None false (Demo.login_world (Some 2%nat)) = None
  /\ forall fuel,
       (2 < fuel)%nat ->
       login_loop fuel None false (Demo.login_world (Some 2%nat))
       = Some (Ok "session", Demo.login_world (Some 0%nat),
               [ELogin (Some "student") (Some "secret");
                ELogin (Some "student") (Some "secret");
                ELogin (Some "student") (Some "secret")]).
Proof.
  exact (login_loop_retries_until_success None false 2 _ _ _ _ _ "session"
           demo_rejected_twice eq_refl).
Defined.

(** Against a service that rejects every attempt, no number of passes ends
    the loop. *)
Lemma login_loop_never_gives_up (fuel : nat) :
  login_loop fuel None false (Demo.login_world None) = None.
Proof.
  induction fuel as [|fuel IH]; [reflexivity|].
  simpl. simpl in IH. rewrite IH. reflexivity.
Qed.

(** C9, as stated, fails: there is no number of failed attempts after which
    the loop stops.  Against a service that rejects every attempt it neither
    returns nor raises, however many passes it is given. *)
Lemma login_loop_is_unbounded :
  ~ exists fuel outcome,
      login_loop fuel None false (Demo.login_world None) = Some outcome.
Proof.
  intros [fuel [outcome Hout]].
  rewrite login_loop_never_gives_up in Hout. discriminate.
Qed.

(** * Further properties of the code *)

(** ** More on [dict_compare] *)

Lemma keys_getitem (d : dict) (k : string) :
  In k (keys d) -> exists v, getitem d k = Some v.
Proof.
  induction d as [|[k' v'] d IH]; simpl; [contradiction|].
  intros [Heq | Hin].
  - subst k'. rewrite String.eqb_refl. exists v'. reflexivity.
  - destruct (String.eqb k k'); [exists v'; reflexivity | exact (IH Hin)].
Qed.

Lemma is_newer_false (a b : dict) (k : string) (x : Z) :
  getitem a k = Some x ->
  is_newer a b k = false <->
  exists y, getitem b k = Some y /\ (x <= y)%Z.
Proof.
  intros Ha. unfold is_newer, item_gt, contains. rewrite Ha.
  destruct (getitem b k) as [y|]; simpl.
  - rewrite Z.ltb_ge. split.
    + intros Hle. exists y. split; [reflexivity | exact Hle].
    + intros [y' [Hy Hle]]. injection Hy as <-. exact Hle.
  - split; [discriminate | intros [y [Hy _]]; discriminate].
Qed.

(** Nothing is newer in [a] than in a mapping that covers it. *)
Lemma newer_items_covered (a b : dict) :
  covers a b -> newer_items a b = [].
Proof.
  intros Hcov. unfold newer_items.
  induction (keys a) as [|k ks IH]; simpl; [reflexivity|].
  rewrite IH, app_nil_r. fold (is_newer a b k).
  destruct (getitem a k) as [x|] eqn:Ha.
  - destruct (Hcov k x Ha) as [y Hy].
    assert (En : is_newer a b k = false)
      by (apply (is_newer_false a b k x Ha); exists y; exact Hy).
    rewrite En. reflexivity.
  - destruct (is_newer a b k); reflexivity.
Qed.

(** X3: the diff of [a] against [b] is empty exactly when [b] holds every
    key of [a] with a count that is at least the count of [a]. *)
Theorem dict_compare_nothing_new_iff (a b : dict) :
  falsy (dict_compare (Some a) (Some b)) = true <-> covers a b.
Proof.
  simpl. split.
  - intros Hempty k x Ha.
    assert (Hd : newer_items a b = [])
      by (destruct (newer_items a b); [reflexivity | discriminate]).
    pose proof (getitem_newer_items a b k) as Hg. rewrite Hd in Hg.
    simpl in Hg. destruct (is_newer a b k) eqn:En.
    + rewrite Ha in Hg. discriminate.
    + apply (is_newer_false a b k x Ha). exact En.
  - intros Hcov. rewrite (newer_items_covered a b Hcov). reflexivity.
Qed.

(** X4: taking the diff against [b] a second time changes nothing. *)
Theorem dict_compare_idempotent (a b : dict) :
  NoDup (keys a) ->
  dict_compare (dict_compare (Some a) (Some b)) (Some b)
  = dict_compare (Some a) (Some b).
Proof.
  intros Hnd. simpl. f_equal.
  set (d := newer_items a b).
  assert (Hndd : NoDup (keys d)) by (apply NoDup_keys_newer_items; exact Hnd).
  assert (Hgen : forall sub : dict,
             (forall k v, In (k, v) sub ->
                          getitem d k = Some v /\ is_newer d b k = true) ->
             flat_map
               (fun key =>
                  if negb (contains key b) || item_gt d b key
                  then match getitem d key with
                       | Some v => [(key, v)]
                       | None => []
                       end
                  else [])
               (keys sub) = sub).
  { induction sub as [|[k v] sub IH]; intros Hsub; simpl; [reflexivity|].
    destruct (Hsub k v (or_introl eq_refl)) as [Hg Hn].
    unfold is_newer in Hn. rewrite Hn, Hg. simpl. f_equal.
    apply IH. intros k0 v0 Hin. apply Hsub. right. exact Hin. }
  apply Hgen. intros k v Hin.
  assert (Hg : getitem d k = Some v) by (apply getitem_In; assumption).
  split; [exact Hg|].
  apply (is_newer_true d b k v Hg).
  unfold d in Hg. rewrite getitem_newer_items in Hg.
  destruct (is_newer a b k) eqn:En; [|discriminate].
  apply (is_newer_true a b k v Hg). exact En.
Qed.

Lemma dict_compare_idempotent_witness :
  dict_compare
    (dict_compare (Some [("Slides", 3%Z); ("Exercises", 1%Z)])
       (Some [("Slides", 3%Z)]))
    (Some [("Slides", 3%Z)])
  = dict_compare (Some [("Slides", 3%Z); ("Exercises", 1%Z)])
      (Some [("Slides", 3%Z)]).
Proof.
  refine (dict_compare_idempotent [("Slides", 3%Z); ("Exercises", 1%Z)]
            [("Slides", 3%Z)] _).
  repeat constructor; simpl; intuition discriminate.
Defined.

(** X5: raising the counts of [b] adds no key to the diff: when [b'] covers
    [b], every key of the diff against [b'] is a key of the diff against
    [b]. *)
Theorem dict_compare_antitone (a b b' : dict) :
  covers b b' ->
  incl (keys_of (dict_compare (Some a) (Some b')))
       (keys_of (dict_compare (Some a) (Some b))).
Proof.
  simpl. intros Hcov k Hin.
  destruct (keys_getitem _ k Hin) as [v Hd'].
  rewrite getitem_newer_items in Hd'.
  destruct (is_newer a b' k) eqn:En'; [|discriminate].
  apply (is_newer_true a b' k v Hd') in En'.
  apply (getitem_Some_keys _ k v). rewrite getitem_newer_items.
  assert (En : is_newer a b k = true).
  { apply (is_newer_true a b k v Hd'). unfold contains.
    destruct (getitem b k) as [w|] eqn:Hb; [|left; reflexivity].
    right. exists w. split; [reflexivity|].
    destruct (Hcov k w Hb) as [w' [Hb' Hle]].
    destruct En' as [Hc | [w2 [Hw2 Hlt]]].
    - unfold contains in Hc. rewrite Hb' in Hc. discriminate.
    - rewrite Hb' in Hw2. injection Hw2 as <-. lia. }
  rewrite En. exact Hd'.
Qed.

Lemma covers_slides_2_3 : covers [("Slides", 2%Z)] [("Slides", 3%Z)].
Proof.
  intros k x. simpl. destruct (String.eqb k "Slides"); [|discriminate].
  intros Hx. injection Hx as <-. exists 3%Z. split; [reflexivity | lia].
Qed.

Lemma dict_compare_antitone_witness :
  incl (keys_of (dict_compare (Some [("Slides", 3%Z); ("Exercises", 1%Z)])
                   (Some [("Slides", 3%Z)])))
       (keys_of (dict_compare (Some [("Slides", 3%Z); ("Exercises", 1%Z)])
                   (Some [("Slides", 2%Z)]))).
Proof.
  exact (dict_compare_antitone [("Slides", 3%Z); ("Exercises", 1%Z)]
           [("Slides", 2%Z)] [("Slides", 3%Z)] covers_slides_2_3).
Defined.

(** ** More on the executor *)

Lemma run_pool_pure_worker {W A R : Type} (f : A -> result (option (list R)))
    (submitted : list A) (w : W) :
  run_pool (pure_worker f) submitted w
  = (Ok (map (fun args => (args, f args)) submitted), w, []).
Proof.
  induction submitted as [|args rest IH]; simpl; [reflexivity|].
  unfold bind, attempt, pure_worker, lift, ret in *. rewrite IH. reflexivity.
Qed.

Lemma contribution_pure_worker {A R : Type}
    (f : A -> result (option (list R))) (l : list A) :
  flat_map contribution (map (fun args => (args, f args)) l)
  = flat_map (yield f) l.
Proof.
  induction l as [|args l IH]; simpl; [reflexivity|].
  rewrite IH. reflexivity.
Qed.

(** X6: for a worker whose outcome depends on its arguments only and that
    raises nothing outside [Exception], the aggregate [threadpool_execute]
    returns is, whatever the order the workers run in and whatever the order
    the finished futures are yielded in, a rearrangement of what the items
    yield in the order of [items]; the world is left as it was. *)
Theorem threadpool_execute_order_independent {W A R : Type}
    (f : A -> result (option (list R))) (items : list A)
    (order yielded : list nat) (w : W) :
  is_order (List.length items) order = true ->
  is_order (List.length items) yielded = true ->
  (forall args e, In args items -> f args = Raise e -> is_Exception e = true) ->
  exists results t,
    threadpool_execute (pure_worker f) items order yielded w
    = (Ok results, w, t)
    /\ Permutation results (flat_map (yield f) items).
Proof.
  intros Ho Hy Hcaught.
  pose proof (pick_Permutation order items Ho) as Hperm.
  set (done := map (fun args => (args, f args)) (pick order items)).
  assert (Hlen : List.length done = List.length items).
  { unfold done. rewrite length_map. apply Permutation_length. exact Hperm. }
  assert (Hyield : Permutation (pick yielded done) done).
  { apply pick_Permutation. rewrite Hlen. exact Hy. }
  unfold threadpool_execute, bind. rewrite run_pool_pure_worker.
  fold done. rewrite gather_all_caught.
  - eexists _, _. split; [reflexivity|]. simpl.
    transitivity (flat_map contribution done).
    + apply Permutation_flat_map. exact Hyield.
    + unfold done. rewrite contribution_pure_worker.
      apply Permutation_flat_map. exact Hperm.
  - unfold all_caught. apply Forall_forall. intros [args r] Hin.
    apply (Permutation_in _ Hyield) in Hin. unfold done in Hin.
    apply in_map_iff in Hin. destruct Hin as [a [Ha Hin]].
    injection Ha as <- <-. simpl.
    destruct (f a) as [r|e] eqn:Ef; [exact I|].
    apply (Hcaught a e); [|exact Ef].
    apply (Permutation_in _ Hperm). exact Hin.
Qed.

Lemma sizes_raise_only_Exception (args : nat) (e : exn) :
  In args [0; 1; 2; 4]%nat ->
  match args with
  | 0%nat => Ok (Some [10; 11]%nat)
  | 1%nat => Raise (Exception "ValueError")
  | 2%nat => Ok None
  | _ => Ok (Some [args])
  end = Raise e ->
  is_Exception e = true.
Proof.
  intros [<- | [<- | [<- | [<- | []]]]]; try discriminate.
  intros He. injection He as <-. reflexivity.
Qed.

Lemma threadpool_execute_order_independent_witness :
  exists results t,
    threadpool_execute
      (pure_worker
         (fun args : nat =>
            match args with
            | 0%nat => Ok (Some [10; 11]%nat)
            | 1%nat => Raise (Exception "ValueError")
            | 2%nat => Ok None
            | _ => Ok (Some [args])
            end))
      [0; 1; 2; 4]%nat [3; 2; 1; 0]%nat [1; 0; 3; 2]%nat tt
    = (Ok results, tt, t)
    /\ Permutation results [10; 11; 4]%nat.
Proof.
  exact (threadpool_execute_order_independent _ [0; 1; 2; 4]%nat
           [3; 2; 1; 0]%nat [1; 0; 3; 2]%nat tt eq_refl eq_refl
           sizes_raise_only_Exception).
Defined.

(** ** More on the listing of a category *)

Section ListingFacts.
Context {W : Type} {H : Handlers W}.

Lemma resolve_files_answered (folder : Path) (table : list RemoteEntry)
    (_files : list FileDescriptor) (w w' : W)
    (ds : list (option FileDescriptor)) :
  answered folder table w ds w' ->
  resolve_files table folder _files w
  = (Ok (_files ++ descriptors ds), w',
     map (fun entry => EGetFile entry folder) table).
Proof.
  intros Hans. revert _files.
  induction Hans as [w | entry rest w w1 w2 d ds Hget Hans IH];
    intros _files; simpl.
  - rewrite app_nil_r. reflexivity.
  - unfold bind, call. rewrite Hget, IH.
    destruct d as [f|]; simpl; [rewrite <- app_assoc|]; reflexivity.
Qed.

Lemma resolve_files_first_failure (folder : Path)
    (before after : list RemoteEntry) (bad : RemoteEntry) (e : exn)
    (_files : list FileDescriptor) (w w1 w2 : W)
    (ds : list (option FileDescriptor)) :
  answered folder before w ds w1 ->
  get_file bad folder w1 = (Raise e, w2) ->
  resolve_files (before ++ bad :: after) folder _files w
  = (Raise e, w2, map (fun entry => EGetFile entry folder) (before ++ [bad])).
Proof.
  intros Hans. revert _files.
  induction Hans as [w | entry rest w wa wb d ds Hget Hans IH];
    intros _files Hbad; simpl.
  - unfold bind, call. rewrite Hbad. reflexivity.
  - unfold bind, call. rewrite Hget, (IH _ Hbad). reflexivity.
Qed.
End ListingFacts.

Section ListingClaims.
Context {W : Type} {H : Handlers W}.

(** X7: when the listing call returns [table] and the calls of [get_file]
    on its entries, each made in the world the call before it left, all
    return, [search_files_in_category] asks for each entry once, in the
    order of the table, against the folder [full_path / category], and
    returns the descriptors it was given, in that order, in the world the
    last call left; an entry answered [None] (a file already there) adds
    nothing. *)
Theorem search_files_in_category_worklist (category catID : string)
    (course : Course) (full_path : Path) (w w1 w2 : W)
    (table : list RemoteEntry) (ds : list (option FileDescriptor)) :
  parse_docs (year course) (semester_type course) (semester course)
    (ID course) catID w = (Ok table, w1) ->
  answered (path_join full_path category) table w1 ds w2 ->
  search_files_in_category category catID course full_path w
  = (Ok (Some (descriptors ds)), w2,
     EParseDocs course catID
     :: map (fun entry => EGetFile entry (path_join full_path category))
          table).
Proof.
  intros Hdocs Hans.
  unfold search_files_in_category, try_except_Exception, search_files_body.
  unfold bind at 1. unfold call at 1. rewrite Hdocs.
  unfold bind at 1.
  rewrite (resolve_files_answered _ table [] w1 w2 ds Hans).
  unfold ret. simpl. rewrite app_nil_r. reflexivity.
Qed.

(** X8: when [get_file] raises an [Exception] on an entry of the table,
    after the calls on the entries before it have returned, the entries
    after it are never asked for, the descriptors of the entries before it
    are dropped, the exception is logged and the function returns [None],
    in the world the failed call left. *)
Theorem search_files_in_category_stops_at_failure (category catID : string)
    (course : Course) (full_path : Path) (w w1 w2 w3 : W)
    (before after : list RemoteEntry) (bad : RemoteEntry) (e : exn)
    (ds : list (option FileDescriptor)) :
  parse_docs (year course) (semester_type course) (semester course)
    (ID course) catID w = (Ok (before ++ bad :: after), w1) ->
  answered (path_join full_path category) before w1 ds w2 ->
  get_file bad (path_join full_path category) w2 = (Raise e, w3) ->
  is_Exception e = true ->
  search_files_in_category category catID course full_path w
  = (Ok None, w3,
     EParseDocs course catID
     :: map (fun entry => EGetFile entry (path_join full_path category))
          (before ++ [bad])
     ++ [ELogError e]).
Proof.
  intros Hdocs Hans Hbad He.
  unfold search_files_in_category, try_except_Exception, search_files_body.
  unfold bind at 1. unfold call at 1. rewrite Hdocs.
  unfold bind at 1.
  rewrite (resolve_files_first_failure _ before after bad e [] w1 w2 w3 ds
             Hans Hbad).
  rewrite He. unfold bind, log_error, ret. simpl. reflexivity.
Qed.
End ListingClaims.

Lemma search_files_in_category_worklist_witness :
  search_files_in_category "Slides" "c1" Demo.algebra ["CLIP"]
    (Demo.world Demo.slides3 None None)
  = (Ok (Some
           (descriptors
              [Some (["CLIP"; "Slides"; "a.pdf"], "a.pdf", 0%Z, 0%Z);
               Some (["CLIP"; "Slides"; "b.pdf"], "b.pdf", 0%Z, 0%Z)])),
     Demo.world Demo.slides3 None None,
     EParseDocs Demo.algebra "c1"
     :: map (fun entry => EGetFile entry (path_join ["CLIP"] "Slides"))
          ["a.pdf"; "b.pdf"]).
Proof.
  exact (search_files_in_category_worklist "Slides" "c1" Demo.algebra
           ["CLIP"] (Demo.world Demo.slides3 None None)
           (Demo.world Demo.slides3 None None)
           (Demo.world Demo.slides3 None None)
           ["a.pdf"; "b.pdf"]
           [Some (["CLIP"; "Slides"; "a.pdf"], "a.pdf", 0%Z, 0%Z);
            Some (["CLIP"; "Slides"; "b.pdf"], "b.pdf", 0%Z, 0%Z)]
           eq_refl
           (answered_cons (H:=Demo.handlers) ["CLIP"; "Slides"] "a.pdf"
              ["b.pdf"] _ _ _ _ _ eq_refl
              (answered_cons (H:=Demo.handlers) ["CLIP"; "Slides"] "b.pdf"
                 [] _ _ _ _ _ eq_refl
                 (answered_nil (H:=Demo.handlers) ["CLIP"; "Slides"] _)))).
Defined.

Lemma search_files_in_category_stops_at_failure_witness :
  search_files_in_category "Slides" "c1" Demo.algebra ["CLIP"]
    Demo.broken_file
  = (Ok None, Demo.broken_file,
     EParseDocs Demo.algebra "c1"
     :: map (fun entry => EGetFile entry (path_join ["CLIP"] "Slides"))
          (["a.pdf"] ++ ["broken.pdf"])
     ++ [ELogError (Exception "OSError")]).
Proof.
  exact (search_files_in_category_stops_at_failure "Slides" "c1"
           Demo.algebra ["CLIP"] Demo.broken_file Demo.broken_file
           Demo.broken_file Demo.broken_file ["a.pdf"] ["c.pdf"]
           "broken.pdf" (Exception "OSError")
           [Some (["CLIP"; "Slides"; "a.pdf"], "a.pdf", 0%Z, 0%Z)]
           eq_refl
           (answered_cons (H:=Demo.handlers) ["CLIP"; "Slides"] "a.pdf" []
              _ _ _ _ _ eq_refl
              (answered_nil (H:=Demo.handlers) ["CLIP"; "Slides"] _))
           eq_refl eq_refl).
Defined.

(** ** More on the diff stage of a course *)

Section CourseExtras.
Context {W : Type} {H : Handlers W}.

(** X9: on a first run (the cache record is the empty mapping) of a course
    with a non-empty index, the record is staged and every category of the
    index gets one task, in the order of the index; the folder adds none. *)
Theorem search_cats_in_course_first_run (path : Path) (course : Course)
    (w w' : W) (index : CatCount) (folderdict : option dict)
    (ids : string -> string) :
  course_run path course w index (Some []) folderdict w' ->
  counts index <> [] ->
  NoDup (keys (counts index)) ->
  resolves index ids (keys (counts index)) ->
  search_cats_in_course path course w
  = (Ok (Some
           (map (fun category =>
                   (category, ids category, course, course_folder path course))
              (keys (counts index)))),
     w',
     [EParseIndex course; EMkdir (course_folder path course);
      EParseCache (course_folder path course);
      EStashCache index (course_folder path course);
      ECountFiles (course_folder path course)]).
Proof.
  intros Hrun Hne Hnd Hres.
  assert (Hserver : dict_compare (Some (counts index)) (Some [])
                    = Some (counts index))
    by (apply dict_compare_empty_r; exact Hnd).
  assert (Hfolder : dict_compare (Some []) folderdict = Some [])
    by (destruct folderdict; reflexivity).
  rewrite (search_cats_in_course_run path course w w' index (Some [])
             folderdict ids Hrun Hne).
  - unfold course_trace. rewrite Hserver, Hfolder. simpl.
    rewrite app_nil_r.
    destruct (counts index); [congruence | reflexivity].
  - rewrite Hserver, Hfolder. simpl. rewrite app_nil_r. exact Hres.
Qed.

(** X10: a course whose cache record covers the live index and whose folder
    holds, for every category of the record, at least the files it counts,
    gets no task, and its record is not staged. *)
Theorem search_cats_in_course_up_to_date (path : Path) (course : Course)
    (w w' : W) (index : CatCount) (c f : dict) :
  course_run path course w index (Some c) (Some f) w' ->
  counts index <> [] ->
  covers (counts index) c ->
  covers c f ->
  search_cats_in_course path course w
  = (Ok (Some []), w',
     [EParseIndex course; EMkdir (course_folder path course);
      EParseCache (course_folder path course);
      ECountFiles (course_folder path course)]).
Proof.
  intros Hrun Hne Hserver Hfolder.
  assert (Hs : dict_compare (Some (counts index)) (Some c) = Some [])
    by (simpl; rewrite (newer_items_covered _ _ Hserver); reflexivity).
  assert (Hf : dict_compare (Some c) (Some f) = Some [])
    by (simpl; rewrite (newer_items_covered _ _ Hfolder); reflexivity).
  rewrite (search_cats_in_course_run path course w w' index (Some c)
             (Some f) (fun k => k) Hrun Hne).
  - unfold course_trace. rewrite Hs, Hf. reflexivity.
  - rewrite Hs, Hf. intros k [].
Qed.

(** X11: when [parse_cache] returns [None], the server diff is the whole
    index and the folder diff is the whole inventory of the folder: every
    category of the index gets a task, and then every subfolder found on
    disk gets one, whether it is a category of the index or not. *)
Theorem search_cats_in_course_without_cache (path : Path) (course : Course)
    (w w' : W) (index : CatCount) (f : dict) (ids : string -> string) :
  course_run path course w index None (Some f) w' ->
  counts index <> [] ->
  resolves index ids (keys (counts index) ++ keys f) ->
  search_cats_in_course path course w
  = (Ok (Some
           (map (fun category =>
                   (category, ids category, course, course_folder path course))
              (keys (counts index) ++ keys f))),
     w',
     [EParseIndex course; EMkdir (course_folder path course);
      EParseCache (course_folder path course);
      EStashCache index (course_folder path course);
      ECountFiles (course_folder path course)]).
Proof.
  intros Hrun Hne Hres.
  rewrite (search_cats_in_course_run path course w w' index None (Some f)
             ids Hrun Hne Hres).
  unfold course_trace. simpl. rewrite map_app.
  destruct (counts index); [congruence | reflexivity].
Qed.
End CourseExtras.

Lemma demo_run_first :
  course_run Demo.clip Demo.algebra
    (Demo.world Demo.slides_exercises None (Some []))
    Demo.slides_exercises (Some []) (Some [])
    (Demo.mkWorld Demo.slides_exercises
       (Some [("Slides", 3%Z); ("Exercises", 1%Z)]) (Some [])
       [Demo.algebra_folder] ["a.pdf"; "b.pdf"] None (Some O)).
Proof.
  unfold course_run. simpl. eexists _, _, _, _. repeat split.
Qed.

Lemma slides_exercises_keys_NoDup : NoDup (keys (counts Demo.slides_exercises)).
Proof. repeat constructor; simpl; intuition discriminate. Qed.

Lemma search_cats_in_course_first_run_witness :
  search_cats_in_course Demo.clip Demo.algebra
    (Demo.world Demo.slides_exercises None (Some []))
  = (Ok (Some
           (map (fun category =>
                   (category, Demo.ids category, Demo.algebra,
                    course_folder Demo.clip Demo.algebra))
              (keys (counts Demo.slides_exercises)))),
     Demo.mkWorld Demo.slides_exercises
       (Some [("Slides", 3%Z); ("Exercises", 1%Z)]) (Some [])
       [Demo.algebra_folder] ["a.pdf"; "b.pdf"] None (Some O),
     [EParseIndex Demo.algebra; EMkdir (course_folder Demo.clip Demo.algebra);
      EParseCache (course_folder Demo.clip Demo.algebra);
      EStashCache Demo.slides_exercises (course_folder Demo.clip Demo.algebra);
      ECountFiles (course_folder Demo.clip Demo.algebra)]).
Proof.
  exact (search_cats_in_course_first_run Demo.clip Demo.algebra _ _
           Demo.slides_exercises (Some []) Demo.ids demo_run_first
           slides_exercises_not_empty slides_exercises_keys_NoDup
           (demo_resolves_both ["Slides"; "Exercises"] eq_refl)).
Defined.

Lemma demo_run_up_to_date :
  course_run Demo.clip Demo.algebra
    (Demo.world Demo.slides3 (Some [("Slides", 3%Z)]) (Some [("Slides", 4%Z)]))
    Demo.slides3 (Some [("Slides", 3%Z)]) (Some [("Slides", 4%Z)])
    (Demo.mkWorld Demo.slides3 (Some [("Slides", 3%Z)])
       (Some [("Slides", 4%Z)]) [Demo.algebra_folder] ["a.pdf"; "b.pdf"] None
       (Some O)).
Proof.
  unfold course_run. simpl. eexists _, _, _, _. repeat split.
Qed.

Lemma covers_slides (x y : Z) :
  (x <= y)%Z -> covers [("Slides", x)] [("Slides", y)].
Proof.
  intros Hle k v. simpl. destruct (String.eqb k "Slides"); [|discriminate].
  intros Hv. injection Hv as <-. exists y. split; [reflexivity | exact Hle].
Qed.

Lemma search_cats_in_course_up_to_date_witness :
  search_cats_in_course Demo.clip Demo.algebra
    (Demo.world Demo.slides3 (Some [("Slides", 3%Z)]) (Some [("Slides", 4%Z)]))
  = (Ok (Some []),
     Demo.mkWorld Demo.slides3 (Some [("Slides", 3%Z)])
       (Some [("Slides", 4%Z)]) [Demo.algebra_folder] ["a.pdf"; "b.pdf"] None
       (Some O),
     [EParseIndex Demo.algebra; EMkdir (course_folder Demo.clip Demo.algebra);
      EParseCache (course_folder Demo.clip Demo.algebra);
      ECountFiles (course_folder Demo.clip Demo.algebra)]).
Proof.
  refine (search_cats_in_course_up_to_date Demo.clip Demo.algebra _ _
            Demo.slides3 [("Slides", 3%Z)] [("Slides", 4%Z)]
            demo_run_up_to_date slides3_not_empty
            (covers_slides 3 3 _) (covers_slides 3 4 _)); lia.
Defined.

Lemma nocache_run :
  course_run Demo.clip Demo.algebra
    (NoCache.mkWorld (Demo.world Demo.slides3 None (Some [("Slides", 3%Z)])))
    Demo.slides3 None (Some [("Slides", 3%Z)])
    (NoCache.mkWorld
       (Demo.mkWorld Demo.slides3 (Some [("Slides", 3%Z)])
          (Some [("Slides", 3%Z)]) [Demo.algebra_folder] ["a.pdf"; "b.pdf"]
          None (Some O))).
Proof.
  unfold course_run. simpl. eexists _, _, _, _. repeat split.
Qed.

Lemma nocache_resolves_slides (ks : list string) :
  forallb (fun k => String.eqb k "Slides") ks = true ->
  resolves (H:=NoCache.handlers) Demo.slides3 Demo.ids ks.
Proof.
  intros Hall k Hk. rewrite forallb_forall in Hall.
  specialize (Hall k Hk). apply String.eqb_eq in Hall. subst k. reflexivity.
Qed.

Lemma search_cats_in_course_without_cache_witness :
  search_cats_in_course Demo.clip Demo.algebra
    (NoCache.mkWorld (Demo.world Demo.slides3 None (Some [("Slides", 3%Z)])))
  = (Ok (Some
           (map (fun category =>
                   (category, Demo.ids category, Demo.algebra,
                    course_folder Demo.clip Demo.algebra))
              (keys (counts Demo.slides3) ++ keys [("Slides", 3%Z)]))),
     NoCache.mkWorld
       (Demo.mkWorld Demo.slides3 (Some [("Slides", 3%Z)])
          (Some [("Slides", 3%Z)]) [Demo.algebra_folder] ["a.pdf"; "b.pdf"]
          None (Some O)),
     [EParseIndex Demo.algebra; EMkdir (course_folder Demo.clip Demo.algebra);
      EParseCache (course_folder Demo.clip Demo.algebra);
      EStashCache Demo.slides3 (course_folder Demo.clip Demo.algebra);
      ECountFiles (course_folder Demo.clip Demo.algebra)]).
Proof.
  exact (search_cats_in_course_without_cache Demo.clip Demo.algebra _ _
           Demo.slides3 [("Slides", 3%Z)] Demo.ids nocache_run
           slides3_not_empty
           (nocache_resolves_slides ["Slides"; "Slides"] eq_refl)).
Defined.

(** ** More on the stages of [main] *)

Lemma pick_nil {A : Type} (order : list nat) : pick order (@nil A) = [].
Proof.
  unfold pick. induction order as [|i order IH]; simpl; [reflexivity|].
  rewrite IH. destruct i; reflexivity.
Qed.

Lemma downloads_of_app (t1 t2 : list Event) :
  downloads_of (t1 ++ t2) = downloads_of t1 ++ downloads_of t2.
Proof. unfold downloads_of. apply flat_map_app. Qed.


Lemma downloads_of_logs (t : list Event) :
  Forall (fun ev => exists e, ev = ELogError e) t -> downloads_of t = [].
Proof.
  induction 1 as [|ev t [e ->] _ IH]; simpl; [reflexivity | exact IH].
Qed.

Section StageExtras.
Context {W : Type} {H : Handlers W}.

Lemma search_cats_in_course_scans (path : Path) (course : Course) :
  emits (fun ev => is_scan_event ev = true)
    (search_cats_in_course path course).
Proof.
  unfold search_cats_in_course.
  apply emits_bind; [apply emits_call; reflexivity|]. intros index.
  destruct (counts index) as [|item rest]; [apply emits_ret|].
  apply emits_bind; [apply emits_call; reflexivity|]. intros _.
  apply emits_bind; [apply emits_call; reflexivity|]. intros cachedict.
  apply emits_bind.
  - destruct (dict_compare _ cachedict) as [[|i d]|];
      [apply emits_ret | | apply emits_ret].
    apply emits_bind; [apply emits_call; reflexivity|]. intros _.
    apply emits_append_tasks.
  - intros _subcats.
    apply emits_bind; [apply emits_call; reflexivity|]. intros folderdict.
    apply emits_bind; [apply emits_append_diff|]. intros tasks.
    apply emits_ret.
Qed.

Lemma search_files_in_category_scans (category catID : string)
    (course : Course) (full_path : Path) :
  emits (fun ev => is_scan_event ev = true)
    (search_files_in_category category catID course full_path).
Proof.
  unfold search_files_in_category, search_files_body.
  apply emits_try.
  - apply emits_bind; [apply emits_call; reflexivity|]. intros table.
    apply emits_bind; [|intros _files; apply emits_ret].
    apply emits_resolve_files. reflexivity.
  - intros e. apply emits_bind; [apply emits_log_error; reflexivity|].
    intros _. apply emits_ret.
Qed.

(** The calls of the pool of the download stage: one download per file
    submitted, in the order in which they run. *)
Lemma run_pool_download_trace (submitted : list FileDescriptor) (w : W) :
  trace_of
    (run_pool (fun file => call (EDownload file) (download_file file))
       submitted w)
  = map EDownload submitted.
Proof.
  revert w. induction submitted as [|file rest IH]; intros w; simpl.
  - reflexivity.
  - unfold bind, attempt, call, trace_of.
    destruct (download_file file w) as [r w1]. simpl.
    specialize (IH w1). unfold trace_of in IH.
    destruct (run_pool _ rest w1) as [[[done|e] w2] t2]; simpl in *;
      rewrite IH; [rewrite app_nil_r|]; reflexivity.
Qed.

Lemma downloads_of_map (files : list FileDescriptor) :
  downloads_of (map EDownload files) = files.
Proof.
  induction files as [|f files IH]; simpl; [reflexivity|].
  rewrite IH. reflexivity.
Qed.

Lemma download_stage_trace (files : list FileDescriptor)
    (order yielded : list nat) (w : W) :
  downloads_of
    (trace_of
       (threadpool_execute
          (fun file => call (EDownload file) (download_file file))
          files order yielded w))
  = pick order files
  /\ Forall (fun ev => is_transfer_event ev = true)
       (trace_of
          (threadpool_execute
             (fun file => call (EDownload file) (download_file file))
             files order yielded w)).
Proof.
  split.
  - unfold threadpool_execute, bind, trace_of.
    pose proof (run_pool_download_trace (pick order files) w) as Hpool.
    unfold trace_of in Hpool.
    destruct (run_pool _ (pick order files) w) as [[[done|e] w1] t1];
      simpl in *; subst t1.
    + pose proof (emits_gather (W:=W) (fun ev => exists e, ev = ELogError e)
                    (pick yielded done) []
                    (fun e => ex_intro _ e eq_refl) w1) as Hlogs.
      unfold trace_of in Hlogs.
      destruct (gather (pick yielded done) [] w1) as [[r w2] t2]. simpl in *.
      rewrite downloads_of_app, downloads_of_map,
        (downloads_of_logs _ Hlogs), app_nil_r.
      reflexivity.
    + apply downloads_of_map.
  - apply emits_threadpool_execute; [|reflexivity].
    intros file. apply emits_call. reflexivity.
Qed.

(** The trace of a run of the stages that returns: the calls of the diff
    and listing stages, then those of the download stage, then the commit
    of the cache. *)
Lemma sync_stages_returns (sched yielded : nat -> nat -> list nat)
    (path : Path) (courses : list Course) (w w' : W)
    (files : list FileDescriptor) (t : list Event) :
  sync_stages sched yielded path courses w = (Ok files, w', t) ->
  exists t_scan t_transfer,
    t = t_scan ++ t_transfer ++ [ECommitCache]
    /\ Forall (fun ev => is_scan_event ev = true) t_scan
    /\ Forall (fun ev => is_transfer_event ev = true) t_transfer
    /\ downloads_of t_transfer
       = pick (sched 4%nat (List.length files)) files.
Proof.
  unfold sync_stages. unfold bind at 1.
  match goal with
  | |- context [threadpool_execute ?wk ?items ?order ?yd w] =>
      pose proof (emits_threadpool_execute (fun ev => is_scan_event ev = true)
                    wk items order yd
                    (fun '(p, c) => search_cats_in_course_scans p c)
                    (fun e => eq_refl) w) as H1;
      destruct (threadpool_execute wk items order yd w)
        as [[[subcats|e1] w1] t1]
  end; [|discriminate].
  unfold bind at 1.
  match goal with
  | |- context [threadpool_execute ?wk ?items ?order ?yd w1] =>
      pose proof (emits_threadpool_execute (fun ev => is_scan_event ev = true)
                    wk items order yd
                    (fun '(cat, id, c, fp) =>
                       search_files_in_category_scans cat id c fp)
                    (fun e => eq_refl) w1) as H2;
      destruct (threadpool_execute wk items order yd w1)
        as [[[fs|e2] w2] t2]
  end; [|discriminate].
  unfold trace_of in H1, H2. simpl in H1, H2.
  unfold bind at 1.
  destruct fs as [|f fs].
  - unfold ret at 1. unfold bind, call.
    destruct (commit_cache w2) as [[[]|e4] w4]; [|discriminate].
    unfold ret. intros Heq. injection Heq as <- <- <-.
    exists (t1 ++ t2), []. repeat split.
    + simpl. rewrite <- app_assoc. reflexivity.
    + apply Forall_app. split; assumption.
    + constructor.
    + simpl. rewrite pick_nil. reflexivity.
  - pose proof (download_stage_trace (f :: fs)
                  (sched 4%nat (List.length (f :: fs)))
                  (yielded 4%nat (List.length (f :: fs))) w2) as [Hd Ht].
    unfold trace_of in Hd, Ht.
    destruct (threadpool_execute _ (f :: fs) _ _ w2) as [[[r3|e3] w3] t3];
      [|discriminate].
    simpl in Hd, Ht. unfold bind, call.
    destruct (commit_cache w3) as [[[]|e4] w4]; [|discriminate].
    unfold ret. intros Heq. injection Heq as <- <- <-.
    exists (t1 ++ t2), t3. repeat split.
    + rewrite <- !app_assoc. reflexivity.
    + apply Forall_app. split; assumption.
    + exact Ht.
    + exact Hd.
Qed.

End StageExtras.

Section StageExtraClaims.
Context {W : Type} {H : Handlers W}.

(** X12: in a run of the stages that returns, every call of the diff and
    listing stages comes before every download, and the commit of the cache
    is the last call, made once. *)
Theorem sync_stages_barriers (sched yielded : nat -> nat -> list nat)
    (path : Path) (courses : list Course) (w w' : W)
    (files : list FileDescriptor) (t : list Event) :
  sync_stages sched yielded path courses w = (Ok files, w', t) ->
  exists t_scan t_transfer,
    t = t_scan ++ t_transfer ++ [ECommitCache]
    /\ Forall (fun ev => is_scan_event ev = true) t_scan
    /\ Forall (fun ev => is_transfer_event ev = true) t_transfer
    /\ ~ In ECommitCache (t_scan ++ t_transfer).
Proof.
  intros Hrun.
  destruct (sync_stages_returns sched yielded path courses w w' files t Hrun)
    as [t_scan [t_transfer [Ht [Hscan [Htransfer _]]]]].
  exists t_scan, t_transfer. repeat split; try assumption.
  intros Hin. apply in_app_or in Hin. rewrite Forall_forall in Hscan, Htransfer.
  destruct Hin as [Hin | Hin];
    [apply Hscan in Hin | apply Htransfer in Hin]; discriminate.
Qed.


(** X14: with no course to scan, the stages call nothing but the commit of
    the cache, and the worklist is empty. *)
Theorem sync_stages_no_course (sched yielded : nat -> nat -> list nat)
    (path : Path) (w w' : W) :
  commit_cache w = (Ok tt, w') ->
  sync_stages sched yielded path [] w = (Ok [], w', [ECommitCache]).
Proof.
  intros Hcommit. unfold sync_stages, threadpool_execute, bind, ret, call.
  simpl. repeat (rewrite pick_nil; simpl). rewrite Hcommit. reflexivity.
Qed.
End StageExtraClaims.

Lemma sync_stages_barriers_witness :
  exists t_scan t_transfer,
    trace_of
      (sync_stages (fun _ n => seq 0 n) (fun _ n => rev (seq 0 n))
           Demo.clip [Demo.algebra]
         (Demo.world Demo.slides_exercises (Some [("Slides", 3%Z)])
            (Some [("Slides", 3%Z)])))
    = t_scan ++ t_transfer ++ [ECommitCache]
    /\ Forall (fun ev => is_scan_event ev = true) t_scan
    /\ Forall (fun ev => is_transfer_event ev = true) t_transfer
    /\ ~ In ECommitCache (t_scan ++ t_transfer).
Proof.
  exact (sync_stages_barriers (fun _ n => seq 0 n) (fun _ n => rev (seq 0 n))
           Demo.clip [Demo.algebra]
           (Demo.world Demo.slides_exercises (Some [("Slides", 3%Z)])
              (Some [("Slides", 3%Z)])) _ _ _ eq_refl).
Defined.


Lemma sync_stages_no_course_witness :
  sync_stages (fun _ n => seq 0 n) (fun _ n => rev (seq 0 n)) Demo.clip []
    (Demo.world Demo.slides3 None None)
  = (Ok [], Demo.world Demo.slides3 None None, [ECommitCache]).
Proof.
  exact (sync_stages_no_course (fun _ n => seq 0 n) (fun _ n => rev (seq 0 n))
           Demo.clip
           (Demo.world Demo.slides3 None None) _ eq_refl).
Defined.

(** ** The choice of the academic year *)

Definition string_le (a b : string) : Prop := String.leb a b = true.

Lemma ascii_compare_refl (c : ascii) : Ascii.compare c c = Eq.
Proof. unfold Ascii.compare. apply N.compare_refl. Qed.

Lemma ascii_compare_lt_trans (a b c : ascii) :
  Ascii.compare a b = Lt -> Ascii.compare b c = Lt -> Ascii.compare a c = Lt.
Proof.
  unfold Ascii.compare. rewrite !N.compare_lt_iff. apply N.lt_trans.
Qed.

Lemma string_compare_lt_trans (a b c : string) :
  String.compare a b = Lt -> String.compare b c = Lt ->
  String.compare a c = Lt.
Proof.
  revert b c. induction a as [|x a IH]; intros [|y b] [|z c]; simpl;
    try discriminate; try reflexivity.
  destruct (Ascii.compare x y) eqn:Exy; try discriminate;
    destruct (Ascii.compare y z) eqn:Eyz; try discriminate; intros Hab Hbc.
  - apply Ascii.compare_eq_iff in Exy, Eyz. subst y z.
    rewrite ascii_compare_refl. exact (IH b c Hab Hbc).
  - apply Ascii.compare_eq_iff in Exy. subst y. rewrite Eyz. reflexivity.
  - apply Ascii.compare_eq_iff in Eyz. subst z. rewrite Exy. reflexivity.
  - rewrite (ascii_compare_lt_trans x y z Exy Eyz). reflexivity.
Qed.

Lemma string_compare_refl (a : string) : String.compare a a = Eq.
Proof.
  induction a as [|x a IH]; simpl; [reflexivity|].
  rewrite ascii_compare_refl. exact IH.
Qed.

Lemma string_le_trans (a b c : string) :
  string_le a b -> string_le b c -> string_le a c.
Proof.
  unfold string_le, String.leb.
  destruct (String.compare a b) eqn:Eab; try discriminate;
    destruct (String.compare b c) eqn:Ebc; try discriminate; intros _ _.
  - apply String.compare_eq_iff in Eab, Ebc. subst a b.
    rewrite string_compare_refl. reflexivity.
  - apply String.compare_eq_iff in Eab. subst a. rewrite Ebc. reflexivity.
  - apply String.compare_eq_iff in Ebc. subst c. rewrite Eab. reflexivity.
  - rewrite (string_compare_lt_trans a b c Eab Ebc). reflexivity.
Qed.

Lemma string_le_refl (a : string) : string_le a a.
Proof. destruct (String.leb_total a a); assumption. Qed.

Lemma insert_sorted_In (x y : string) (l : list string) :
  In y (insert_sorted x l) <-> x = y \/ In y l.
Proof.
  induction l as [|z l IH]; simpl.
  - tauto.
  - destruct (String.leb x z); simpl; [tauto|]. rewrite IH. tauto.
Qed.

Lemma sorted_In (y : string) (l : list string) :
  In y (sorted l) <-> In y l.
Proof.
  induction l as [|x l IH]; simpl; [tauto|].
  rewrite insert_sorted_In, IH. tauto.
Qed.

Lemma insert_sorted_StronglySorted (x : string) (l : list string) :
  StronglySorted string_le l -> StronglySorted string_le (insert_sorted x l).
Proof.
  induction 1 as [|z l Hl IH Hz]; simpl.
  - constructor; constructor.
  - destruct (String.leb x z) eqn:Exz.
    + constructor; [constructor; assumption|].
      constructor; [exact Exz|].
      rewrite Forall_forall in *. intros y Hy.
      exact (string_le_trans x z y Exz (Hz y Hy)).
    + constructor; [exact IH|].
      rewrite Forall_forall in *. intros y Hy.
      apply insert_sorted_In in Hy. destruct Hy as [<- | Hy].
      * destruct (String.leb_total x z) as [Hxz | Hzx]; [|exact Hzx].
        rewrite Hxz in Exz. discriminate.
      * exact (Hz y Hy).
Qed.

Lemma sorted_StronglySorted (l : list string) :
  StronglySorted string_le (sorted l).
Proof.
  induction l as [|x l IH]; simpl;
    [constructor | apply insert_sorted_StronglySorted, IH].
Qed.

Lemma last_In (l : list string) (d : string) : l <> [] -> In (last l d) l.
Proof.
  induction l as [|x l IH]; [congruence|]. intros _.
  destruct l as [|y l]; [left; reflexivity|].
  right. apply IH. discriminate.
Qed.

Lemma last_StronglySorted (l : list string) (d : string) :
  StronglySorted string_le l ->
  forall x, In x l -> string_le x (last l d).
Proof.
  induction 1 as [|a l Hl IH Ha]; intros x Hx; [contradiction|].
  destruct l as [|b l].
  - destruct Hx as [<- | []]. apply string_le_refl.
  - change (last (a :: b :: l) d) with (last (b :: l) d).
    destruct Hx as [<- | Hx].
    + rewrite Forall_forall in Ha. apply Ha. apply last_In. discriminate.
    + exact (IH x Hx).
Qed.

Section YearClaims.
Context {W : Type} {H : Handlers W} {C : Console W}.

(** X15: in automatic mode, whenever the user is enrolled in a year,
    [choose_year] returns the greatest of the year keys, without a prompt:
    the only call is [parse_years]. *)
Theorem choose_year_auto_latest (user : string) (w w1 : W)
    (years : list (string * string)) :
  parse_years user w = (Ok years, w1) ->
  years <> [] ->
  exists year,
    choose_year user true w = (Ok year, w1, [])
    /\ In year (map snd years)
    /\ forall y, In y (map snd years) -> String.leb y year = true.
Proof.
  intros Hyears Hne. unfold choose_year, bind, ask. rewrite Hyears.
  destruct years as [|[l1 y1] [|[l2 y2] rest]]; [congruence | |].
  - exists y1. unfold ret. repeat split.
    + left. reflexivity.
    + intros y [<- | []]. apply string_le_refl.
  - set (ys := map snd ((l1, y1) :: (l2, y2) :: rest)).
    exists (last (sorted ys) ""). unfold ret. repeat split.
    + apply sorted_In. apply last_In.
      intros Hnil. assert (Hin : In y1 (sorted ys))
        by (apply sorted_In; left; reflexivity).
      rewrite Hnil in Hin. contradiction.
    + intros y Hy.
      apply (last_StronglySorted (sorted ys) "" (sorted_StronglySorted ys)).
      apply sorted_In. exact Hy.
Qed.

(** X16: when the user is enrolled in no year, [main] exits after
    [parse_years]: no course is listed, nothing is scanned, downloaded or
    committed, and the configuration is not saved. *)
Theorem main_after_login_no_year (sched yielded : nat -> nat -> list nat)
    (path : Path) (user : string) (auto : bool) (w w1 : W) :
  parse_years user w = (Ok [], w1) ->
  main_after_login sched yielded path user auto w
  = (Raise SystemExit, w1, []).
Proof.
  intros Hyears. unfold main_after_login, choose_year, bind, ask.
  rewrite Hyears. reflexivity.
Qed.
End YearClaims.

Lemma desk_years_not_empty :
  [("2022/23", "2023"); ("2019/20", "2020"); ("2023/24", "2024")]
  <> @nil (string * string).
Proof. discriminate. Qed.

Lemma choose_year_auto_latest_witness :
  exists year,
    choose_year "student" true
      (Desk.desk ["home"] [] []
         [("2022/23", "2023"); ("2019/20", "2020"); ("2023/24", "2024")])
    = (Ok year,
       Desk.desk ["home"] [] []
         [("2022/23", "2023"); ("2019/20", "2020"); ("2023/24", "2024")],
       [])
    /\ In year ["2023"; "2020"; "2024"]
    /\ forall y, In y ["2023"; "2020"; "2024"] -> String.leb y year = true.
Proof.
  exact (choose_year_auto_latest "student"
           (Desk.desk ["home"] [] []
              [("2022/23", "2023"); ("2019/20", "2020"); ("2023/24", "2024")])
           _ [("2022/23", "2023"); ("2019/20", "2020"); ("2023/24", "2024")]
           eq_refl desk_years_not_empty).
Defined.

Example choose_year_auto_run :
  result_of
    (choose_year "student" true
       (Desk.desk ["home"] [] []
          [("2022/23", "2023"); ("2019/20", "2020"); ("2023/24", "2024")]))
  = Ok "2024".
Proof. reflexivity. Qed.

Lemma main_after_login_no_year_witness :
  main_after_login (fun _ n => seq 0 n) (fun _ n => rev (seq 0 n))
    ["home"; "CLIP"] "student" true
    (Desk.desk ["home"] [] [] [])
  = (Raise SystemExit, Desk.desk ["home"] [] [] [], []).
Proof.
  exact (main_after_login_no_year (fun _ n => seq 0 n)
           (fun _ n => rev (seq 0 n)) ["home"; "CLIP"] "student" true (Desk.desk ["home"] [] [] []) _ eq_refl).
Defined.

(** ** The target folder *)

Lemma path_name_join (p : Path) (x : string) : path_name (path_join p x) = x.
Proof. unfold path_name, path_join. apply last_last. Qed.

Section PathClaims.
Context {W : Type} {H : Handlers W} {C : Console W}.

(** X17: started without a path in a folder [here], when the default folder
    does not exist and the user agrees to create it, [check_path] makes the
    folder and returns it; it is [here] itself when [here] is named "CLIP"
    and [here / "CLIP"] otherwise, so its name is always "CLIP". *)
Theorem check_path_fresh_start (fuel : nat) (here : Path) (w w0 w1 w2 w3 : W) :
  let target :=
    if String.eqb (path_name here) "CLIP" then here else path_join here "CLIP"
  in
  cwd w = (Ok here, w0) ->
  exists_ target w0 = (Ok false, w1) ->
  confirm target w1 = (Ok true, w2) ->
  mkdir target w2 = (Ok tt, w3) ->
  check_path (S fuel) None w = Some (Ok target, w3, [EMkdir target])
  /\ path_name target = "CLIP".
Proof.
  intros target Hcwd Hex Hconf Hmk. split.
  - simpl. unfold bindF, liftF, default_path, bind, ask, call, ret.
    rewrite Hcwd. fold target. simpl. rewrite Hex. simpl. rewrite Hconf.
    rewrite Hmk. reflexivity.
  - unfold target. destruct (String.eqb (path_name here) "CLIP") eqn:E.
    + apply String.eqb_eq. exact E.
    + apply path_name_join.
Qed.

(** X18: when the folder asked for cannot be used (it does not exist and
    the user declines to create it, or it exists and is no directory),
    [check_path] returns the path [q] the user then enters, whatever the
    nested check of [q] returned: the value [r] of the nested call is
    dropped, also when the nested call went on to another folder. *)
Theorem check_path_returns_entered_path (fuel : nat) (p q r : Path)
    (found : bool) (w w1 w2 w3 w4 : W) (t : list Event) :
  exists_ p w = (Ok found, w1) ->
  (if found
   then is_dir p w1 = (Ok false, w2)
   else confirm p w1 = (Ok false, w2)) ->
  filepath p w2 = (Ok q, w3) ->
  check_path fuel (Some q) w3 = Some (Ok r, w4, t) ->
  check_path (S fuel) (Some p) w = Some (Ok q, w4, t).
Proof.
  intros Hex Hrefused Hq Hnested.
  simpl. unfold bindF at 1. unfold liftF at 1. unfold default_path, ret at 1.
  unfold bindF at 1. unfold liftF at 1. unfold ask at 1. rewrite Hex.
  destruct found; cbn [negb].
  - unfold bindF at 1. unfold liftF at 1. unfold ask at 1. rewrite Hrefused.
    cbn [negb].
    unfold bindF at 1. unfold liftF at 1. unfold query_path, ask.
    rewrite Hq. unfold bindF. rewrite Hnested. unfold liftF, ret.
    simpl. rewrite app_nil_r. reflexivity.
  - unfold bindF at 1. unfold liftF at 1. unfold ask at 1. rewrite Hrefused.
    unfold bindF at 1. unfold liftF at 1. unfold query_path, ask.
    rewrite Hq. unfold bindF. rewrite Hnested. unfold liftF, ret.
    simpl. rewrite app_nil_r. reflexivity.
Qed.
End PathClaims.

Lemma check_path_fresh_start_witness :
  check_path 1 None (Desk.desk ["home"] [true] [] [])
  = Some
      (Ok ["home"; "CLIP"],
       Desk.mkWorld
         (Demo.add_dir ["home"; "CLIP"]
            (Demo.world Demo.slides3 None (Some [])))
         ["home"] [] [] [] [] [] "2023" [Demo.algebra] None false,
       [EMkdir ["home"; "CLIP"]])
  /\ path_name ["home"; "CLIP"] = "CLIP".
Proof.
  exact (check_path_fresh_start 0 ["home"]
           (Desk.desk ["home"] [true] [] []) _ _ _ _
           eq_refl eq_refl eq_refl eq_refl).
Defined.

(** The user declines "data", enters "x", declines it too, enters "y" and
    agrees to create it: "y" is made, and [check_path] returns "x". *)
Lemma check_path_returns_entered_path_witness :
  check_path 3 (Some ["data"])
    (Desk.desk ["home"] [false; false; true] [["x"]; ["y"]] [])
  = Some
      (Ok ["x"],
       Desk.mkWorld
         (Demo.add_dir ["y"] (Demo.world Demo.slides3 None (Some [])))
         ["home"] [] [] [] [] [] "2023" [Demo.algebra] None false,
       [EMkdir ["y"]]).
Proof.
  exact (check_path_returns_entered_path 2 ["data"] ["x"] ["y"] false
           (Desk.desk ["home"] [false; false; true] [["x"]; ["y"]] [])
           _ _ _ _ _ eq_refl eq_refl eq_refl eq_refl).
Defined.

(** ** More on the login loop *)

Section LoginExtras.
Context {W : Type} {H : Handlers W}.


(** X20: only [LoginError] is retried: after any number of rejected
    attempts, an attempt that raises something else ends the loop, which
    raises it. *)
Theorem login_loop_other_error_ends (username : option string)
    (force_relogin : bool) (k : nat) (w w1 w2 : W) (t1 t2 : list Event)
    (e : exn) :
  rejected username force_relogin k w w1 t1 ->
  login_attempt username force_relogin w1 = (Raise e, w2, t2) ->
  is_LoginError e = false ->
  forall fuel,
    (k < fuel)%nat ->
    login_loop fuel username force_relogin w = Some (Raise e, w2, t1 ++ t2).
Proof.
  intros Hrej Herr He.
  induction Hrej as [w | k w wa wb ta tb Hatt Hrej IH]; intros fuel Hlt.
  - destruct fuel as [|fuel]; [lia|]. simpl. rewrite Herr, He. reflexivity.
  - destruct fuel as [|fuel]; [lia|]. simpl. rewrite Hatt. simpl.
    rewrite (IH Herr fuel) by lia. rewrite app_assoc. reflexivity.
Qed.
End LoginExtras.

Lemma login_loop_other_error_ends_witness :
  login_loop 1 (Some "student") true
    (Desk.offline (Exception "ConnectionError"))
  = Some (Raise (Exception "ConnectionError"),
          Desk.offline (Exception "ConnectionError"),
          [] ++ [ELogin (Some "student") None]).
Proof.
  exact (login_loop_other_error_ends (Some "student") true 0
           (Desk.offline (Exception "ConnectionError")) _ _ _ _
           (Exception "ConnectionError")
           (rejected_O (Some "student") true _) eq_refl eq_refl 1%nat
           (le_n 1)).
Defined.

(** ** The order of the calls of [main] *)





Section MainOrder.
Context {W : Type} {H : Handlers W} {C : Console W}.




End MainOrder.


